(** * rive-renderer: PLS draw objects and the Vulkan flush engine

    A shallow embedding of
    - [include/rive/pls/pls_draw.hpp]: [ResourceCounters] and the
      compile-time constants of [InteriorTriangulationDraw];
    - [renderer/vulkan/pls_render_context_vulkan_impl.cpp]: the render-pass
      variant key of [DrawPipelineLayout], [prepareToMapBuffers] and [flush].

    Integers are [Z] with the wrap-around of their C++ type written out.
    The Vulkan calls a function makes are recorded, in program order, in a
    trace carried by the state; objects reached through pointers (image
    textures, render targets) live in maps keyed by their address. *)

From stdpp Require Import gmap list.
From Stdlib Require Import ZArith Lia.

Local Open Scope Z_scope.

(** ** Machine integers *)

Definition wrap (bits : Z) (z : Z) : Z := z mod 2 ^ bits.
Definition u32 (z : Z) : Z := wrap 32 z.
Definition u64 (z : Z) : Z := wrap 64 z.

(** [size_t] is 64 bits wide on every target of the renderer. *)
Definition size_t_max : Z := 2 ^ 64 - 1.
Definition is_size_t (z : Z) : Prop := 0 <= z <= size_t_max.

Definition size_t_add (a b : Z) : Z := u64 (a + b).
Definition size_t_sub (a b : Z) : Z := u64 (a - b).
Definition size_t_mul (a b : Z) : Z := u64 (a * b).
Definition size_t_div (a b : Z) : Z := a / b.

(** ** pls_draw.hpp *)

Module PLSDraw.

(** [struct ResourceCounters]: eight [size_t] members, in declaration
    order. *)
Record ResourceCounters := {
  midpointFanTessVertexCount : Z;
  outerCubicTessVertexCount : Z;
  pathCount : Z;
  contourCount : Z;
  tessellatedSegmentCount : Z;
  maxTriangleVertexCount : Z;
  imageDrawCount : Z;
  complexGradientSpanCount : Z
}.

(** Every member holds a value of its type. *)
Definition ResourceCounters_wf (c : ResourceCounters) : Prop :=
  is_size_t (midpointFanTessVertexCount c) /\
  is_size_t (outerCubicTessVertexCount c) /\
  is_size_t (pathCount c) /\
  is_size_t (contourCount c) /\
  is_size_t (tessellatedSegmentCount c) /\
  is_size_t (maxTriangleVertexCount c) /\
  is_size_t (imageDrawCount c) /\
  is_size_t (complexGradientSpanCount c).

(** [simd::gvec<size_t, 8>]: eight lanes. *)
Definition VecType := list Z.

(** Object representations.  A byte is a [Z] in [0, 256); a [size_t] is
    stored as eight bytes, least significant first. *)
Fixpoint bytes_le (n : nat) (x : Z) : list Z :=
  match n with
  | O => []
  | S n' => x mod 256 :: bytes_le n' (x / 256)
  end.

Fixpoint of_bytes_le (bs : list Z) : Z :=
  match bs with
  | [] => 0
  | b :: bs' => b + 256 * of_bytes_le bs'
  end.

Definition store_size_t (x : Z) : list Z := bytes_le 8 x.
Definition load_size_t (bs : list Z) : Z := of_bytes_le (take 8 bs).

(** The 64 bytes of a [ResourceCounters]: the members one after another
    ([static_assert(sizeof(VecType) == sizeof( *this))] leaves no room for
    padding). *)
Definition ResourceCounters_bytes (c : ResourceCounters) : list Z :=
  store_size_t (midpointFanTessVertexCount c) ++
  store_size_t (outerCubicTessVertexCount c) ++
  store_size_t (pathCount c) ++
  store_size_t (contourCount c) ++
  store_size_t (tessellatedSegmentCount c) ++
  store_size_t (maxTriangleVertexCount c) ++
  store_size_t (imageDrawCount c) ++
  store_size_t (complexGradientSpanCount c).

(** The 64 bytes of a vector: lane after lane. *)
Definition VecType_bytes (v : VecType) : list Z :=
  concat (map store_size_t v).

(** Reading [n] lanes of a vector from memory. *)
Fixpoint VecType_of_bytes (n : nat) (bs : list Z) : VecType :=
  match n with
  | O => []
  | S n' => load_size_t bs :: VecType_of_bytes n' (drop 8 bs)
  end.

(** Reading a [ResourceCounters] from memory: member [i] sits at byte
    offset [8 * i]. *)
Definition ResourceCounters_of_bytes (bs : list Z) : ResourceCounters :=
  {| midpointFanTessVertexCount := load_size_t bs;
     outerCubicTessVertexCount := load_size_t (drop 8 bs);
     pathCount := load_size_t (drop 16 bs);
     contourCount := load_size_t (drop 24 bs);
     tessellatedSegmentCount := load_size_t (drop 32 bs);
     maxTriangleVertexCount := load_size_t (drop 40 bs);
     imageDrawCount := load_size_t (drop 48 bs);
     complexGradientSpanCount := load_size_t (drop 56 bs) |}.

(** [toVec()]: [RIVE_INLINE_MEMCPY(&vec, this, sizeof(VecType))]. *)
Definition toVec (c : ResourceCounters) : VecType :=
  VecType_of_bytes 8 (ResourceCounters_bytes c).

(** [ResourceCounters(const VecType&)]:
    [RIVE_INLINE_MEMCPY(this, &vec, sizeof( *this))]. *)
Definition ofVec (v : VecType) : ResourceCounters :=
  ResourceCounters_of_bytes (VecType_bytes v).

End PLSDraw.

(** ** InteriorTriangulationDraw: compile-time constants

    [kOuterCurvePatchSegmentSpan] and [kMaxParametricSegments] come from
    [rive/pls/pls.hpp], which is not part of the sources at hand; they are
    arguments here.  Both are converted to [size_t] by the arithmetic. *)

Module InteriorTriangulationDraw.

Definition kJoinSegmentCount : Z := 1.

Definition kPatchSegmentCountExcludingJoin
    (kOuterCurvePatchSegmentSpan : Z) : Z :=
  size_t_sub kOuterCurvePatchSegmentSpan kJoinSegmentCount.

Definition kMaxCurveSubdivisions
    (kMaxParametricSegments kOuterCurvePatchSegmentSpan : Z) : Z :=
  size_t_div
    (size_t_sub
       (size_t_add kMaxParametricSegments
          (kPatchSegmentCountExcludingJoin kOuterCurvePatchSegmentSpan))
       1)
    (kPatchSegmentCountExcludingJoin kOuterCurvePatchSegmentSpan).

(** [std::clamp<size_t>(v, lo, hi)]. *)
Definition clamp (v lo hi : Z) : Z :=
  if v <? lo then lo else if hi <? v then hi else v.

(** The last line of [FindSubdivisionCount].  [numSubdivisions] is the
    conversion to [size_t] of a [float]: [ceilf] of Wang's formula times
    [1.f / kPatchSegmentCountExcludingJoin].  That expression is binary32
    arithmetic and stays outside this development; its value is the
    argument here. *)
Definition FindSubdivisionCount_clamp (kMaxCurveSubdivisions numSubdivisions : Z) : Z :=
  clamp numSubdivisions 1 kMaxCurveSubdivisions.

End InteriorTriangulationDraw.

(** ** Enumerations of rive/pls/pls.hpp, as this file uses them *)

Module LoadAction.
Inductive t := preserveRenderTarget | clear | dontCare.
#[global] Instance LoadAction_eq_dec : EqDecision t.
Proof. solve_decision. Defined.
End LoadAction.

Module InterlockMode.
Inductive t := rasterOrdering | atomics | depthStencil.
#[global] Instance InterlockMode_eq_dec : EqDecision t.
Proof. solve_decision. Defined.
End InterlockMode.

Module DrawType.
Inductive t :=
| midpointFanPatches
| outerCurvePatches
| interiorTriangulation
| imageRect
| imageMesh
| plsAtomicInitialize
| plsAtomicResolve
| stencilClipReset.
#[global] Instance DrawType_eq_dec : EqDecision t.
Proof. solve_decision. Defined.
End DrawType.

(** [pls::ShaderFeatures] is a bit set. *)
Definition ShaderFeatures := Z.

(** ** The Vulkan objects and calls of the renderer *)

Inductive VkFormat :=
| VK_FORMAT_R8G8B8A8_UNORM
| VK_FORMAT_B8G8R8A8_UNORM
| VK_FORMAT_R32_UINT
| VK_FORMAT_R32G32B32A32_UINT.

#[global] Instance VkFormat_eq_dec : EqDecision VkFormat.
Proof. solve_decision. Defined.

Inductive VkAttachmentLoadOp :=
| VK_ATTACHMENT_LOAD_OP_LOAD
| VK_ATTACHMENT_LOAD_OP_CLEAR
| VK_ATTACHMENT_LOAD_OP_DONT_CARE.

Inductive VkImageLayout :=
| VK_IMAGE_LAYOUT_UNDEFINED
| VK_IMAGE_LAYOUT_GENERAL
| VK_IMAGE_LAYOUT_COLOR_ATTACHMENT_OPTIMAL
| VK_IMAGE_LAYOUT_SHADER_READ_ONLY_OPTIMAL
| VK_IMAGE_LAYOUT_TRANSFER_SRC_OPTIMAL
| VK_IMAGE_LAYOUT_TRANSFER_DST_OPTIMAL.

Inductive VkAccess :=
| VK_ACCESS_COLOR_ATTACHMENT_WRITE_BIT
| VK_ACCESS_INPUT_ATTACHMENT_READ_BIT.

Inductive VkPipelineStage :=
| VK_PIPELINE_STAGE_COLOR_ATTACHMENT_OUTPUT_BIT
| VK_PIPELINE_STAGE_FRAGMENT_SHADER_BIT.

Inductive VkDescriptorType :=
| VK_DESCRIPTOR_TYPE_UNIFORM_BUFFER
| VK_DESCRIPTOR_TYPE_UNIFORM_BUFFER_DYNAMIC
| VK_DESCRIPTOR_TYPE_SAMPLED_IMAGE
| VK_DESCRIPTOR_TYPE_STORAGE_BUFFER
| VK_DESCRIPTOR_TYPE_INPUT_ATTACHMENT
| VK_DESCRIPTOR_TYPE_STORAGE_IMAGE.

(** Binding indices of shaders/constants.glsl. *)
Inductive Binding :=
| TESS_VERTEX_TEXTURE_IDX
| GRAD_TEXTURE_IDX
| IMAGE_TEXTURE_IDX
| PATH_BUFFER_IDX
| PAINT_BUFFER_IDX
| PAINT_AUX_BUFFER_IDX
| CONTOUR_BUFFER_IDX
| FLUSH_UNIFORM_BUFFER_IDX
| IMAGE_DRAW_UNIFORM_BUFFER_IDX
| COLOR_PLANE_IDX
| COVERAGE_PLANE_IDX
| CLIP_PLANE_IDX
| SCRATCH_COLOR_PLANE_IDX.

(** Descriptor set indices; the values are the ones [flush] asserts
    statically. *)
Definition PER_FLUSH_BINDINGS_SET : Z := 0.
Definition PER_DRAW_BINDINGS_SET : Z := 1.
Definition SAMPLER_BINDINGS_SET : Z := 2.
Definition PLS_TEXTURE_BINDINGS_SET : Z := 3.
Definition BINDINGS_SET_COUNT : Z := 4.

(** Addresses of the objects [flush] reaches through pointers. *)
Definition TextureId := positive.
Definition RenderTargetId := positive.
Definition RenderBufferId := positive.
Definition Fence := positive.

(** The ten buffer rings of the context. *)
Inductive BufferRing :=
| m_flushUniformBufferRing
| m_imageDrawUniformBufferRing
| m_pathBufferRing
| m_paintBufferRing
| m_paintAuxBufferRing
| m_contourBufferRing
| m_simpleColorRampsBufferRing
| m_gradSpanBufferRing
| m_tessSpanBufferRing
| m_triangleBufferRing.

Inductive Buffer :=
| vkBufferAt (ring : BufferRing) (idx : Z)
| m_tessSpanIndexBuffer
| m_pathPatchVertexBuffer
| m_pathPatchIndexBuffer
| m_imageRectVertexBuffer
| m_imageRectIndexBuffer
| frontVkBuffer (rb : RenderBufferId)
| imageUploadBuffer (tex : TextureId).

Inductive Image :=
| m_gradientTexture
| m_tessVertexTexture
| imageTexture (tex : TextureId)
| m_targetTexture (rt : RenderTargetId)
| m_coverageTexture (rt : RenderTargetId)
| m_clipTexture (rt : RenderTargetId)
| m_scratchColorTexture (rt : RenderTargetId)
| m_coverageAtomicTexture (rt : RenderTargetId).

Inductive ImageView :=
| viewOf (img : Image)
| VK_NULL_HANDLE_view.

Inductive RenderPass :=
| colorRampRenderPass
| tessellateRenderPass
| drawRenderPass (mode : InterlockMode.t) (renderPassVariantIdx : Z).

Inductive Pipeline :=
| colorRampPipeline
| tessellatePipeline
| drawPipeline (pipelineKey : Z).

Inductive PipelineLayout :=
| colorRampPipelineLayout
| tessellatePipelineLayout
| drawPipelineLayout (mode : InterlockMode.t).

Inductive DescriptorSetLayout :=
| colorRampDescriptorSetLayout
| tessellateDescriptorSetLayout
| perFlushLayout (mode : InterlockMode.t)
| perDrawLayout (mode : InterlockMode.t)
| samplerLayout (mode : InterlockMode.t)
| plsLayout (mode : InterlockMode.t).

(** Descriptor pools and the sets allocated from them are named by the
    handle the driver returned. *)
Definition DescriptorSetPool := Z.

Inductive VkDescriptorSet :=
| VK_NULL_HANDLE
| nullImageDescriptorSet (mode : InterlockMode.t)
| samplerDescriptorSet (mode : InterlockMode.t)
| descriptorSet (handle : Z).

#[global] Instance VkDescriptorSet_eq_dec : EqDecision VkDescriptorSet.
Proof. solve_decision. Defined.

Record VkRect2D := {
  offset_x : Z; offset_y : Z;
  extent_width : Z; extent_height : Z
}.

Inductive VkClearValue :=
| color_clear_rgba32f (color : Z)
| color_clear_r32ui (value : Z)
| zero_clear.

Inductive Range :=
| VK_WHOLE_SIZE
| range_bytes (n : Z).

Record VkDescriptorBufferInfo := {
  info_buffer : Buffer;
  info_offset : Z;
  info_range : Range
}.

Record FramebufferInfo := {
  fb_renderPass : RenderPass;
  fb_attachmentCount : Z;
  fb_attachments : list ImageView;
  fb_width : Z;
  fb_height : Z
}.

Inductive Framebuffer :=
| m_gradTextureFramebuffer
| m_tessTextureFramebuffer
| framebufferOf (info : FramebufferInfo).

(** One entry per call that reaches the Vulkan device, a command buffer,
    a fence or a buffer ring. *)
Inductive Event :=
(* recorded into the command buffer *)
| insert_image_memory_barrier (img : Image) (oldLayout newLayout : VkImageLayout)
    (mips : option (Z * Z))
| vkCmdBeginRenderPass (rp : RenderPass) (fb : Framebuffer) (area : VkRect2D)
    (clearValues : list VkClearValue)
| vkCmdEndRenderPass
| vkCmdBindPipeline (p : Pipeline)
| vkCmdSetViewport (area : VkRect2D)
| vkCmdSetScissor (area : VkRect2D)
| vkCmdBindVertexBuffers (firstBinding : Z) (buf : Buffer)
| vkCmdBindIndexBuffer (buf : Buffer)
| vkCmdBindDescriptorSets (layout : PipelineLayout) (firstSet : Z)
    (sets : list VkDescriptorSet) (dynamicOffsets : list Z)
| vkCmdDraw (vertexCount instanceCount firstVertex firstInstance : Z)
| vkCmdDrawIndexed (indexCount instanceCount firstIndex vertexOffset firstInstance : Z)
| vkCmdCopyBufferToImage (src : Buffer) (dst : Image) (bufferOffset bufferRowLength : Z)
    (w h : Z)
| vkCmdBlitImage (img : Image) (srcLevel dstLevel : Z) (srcSize dstSize : Z * Z)
| vkCmdClearColorImage (img : Image) (value : VkClearValue)
| vkCmdPipelineBarrier (srcStage dstStage : VkPipelineStage)
    (srcAccessMask dstAccessMask : VkAccess)
(* device and allocator *)
| vkCreateDescriptorPool (pool : DescriptorSetPool)
| vkResetDescriptorPool (pool : DescriptorSetPool)
| vkDestroyDescriptorPool (pool : DescriptorSetPool)
| vkAllocateDescriptorSets (pool : DescriptorSetPool) (layout : DescriptorSetLayout)
    (set : VkDescriptorSet)
| update_image_descriptor_sets (set : VkDescriptorSet) (dstBinding : Binding)
    (type : VkDescriptorType) (view : ImageView) (layout : VkImageLayout)
| update_buffer_descriptor_sets (set : VkDescriptorSet) (dstBinding : Binding)
    (type : VkDescriptorType) (infos : list VkDescriptorBufferInfo)
| makeTexture (img : Image) (format : VkFormat) (w h : Z)
| makeTextureView (img : Image)
| makeFramebuffer (info : FramebufferInfo)
| releaseFramebuffer (info : FramebufferInfo)
| newDrawPipelineLayout (mode : InterlockMode.t)
| vkCreateRenderPass (mode : InterlockMode.t) (renderPassVariantIdx : Z)
    (colorLoadOp : VkAttachmentLoadOp)
| vkCreateShaderModules (shaderKey : Z)
| vkCreateGraphicsPipelines (pipelineKey : Z) (wireframe : bool)
(* fences, purgatory and buffer rings *)
| fence_wait (f : Fence)
| deleteResource (resource : Z)
| synchronizeSizeAt (ring : BufferRing) (idx : Z).

(** ** Header constants

    Declarations of [rive/pls/pls.hpp] and of the class header that this
    translation unit uses but does not define. *)
Class PlsHeader := {
  kBufferRingSize : Z;
  (** [static_cast<int>(pls::LoadAction)] *)
  LoadAction_int : LoadAction.t -> Z;
  ShaderUniqueKey : DrawType.t -> ShaderFeatures -> InterlockMode.t -> Z;
  PatchIndexCount : DrawType.t -> Z;
  PatchBaseIndex : DrawType.t -> Z;
  kTessSpanIndices_size : Z;
  kImageRectIndices_size : Z;
  kGradTextureWidth : Z;
  kTessTextureWidth : Z;
  sizeof_PathData : Z;
  sizeof_ContourData : Z;
  sizeof_PaintData : Z;
  sizeof_PaintAuxData : Z;
  sizeof_FlushUniforms : Z;
  sizeof_ImageDrawUniforms : Z;
  ENABLE_ADVANCED_BLEND : ShaderFeatures;
  (** [ZombieResource::expirationFrameIdx], from the frame the resource
      was last used in. *)
  expirationFrameIdx : Z -> Z
}.

(** ** Objects *)

(** [PLSTextureVulkanImpl]: the members [flush] reads and writes. *)
Record PLSTextureVulkanImpl := {
  tex_width : Z;
  tex_height : Z;
  tex_mipLevels : Z;
  (** [m_imageUploadBuffer != nullptr] *)
  m_imageUploadBuffer : bool;
  m_imageTextureDescriptorSet : VkDescriptorSet;
  m_descriptorSetFrameIdx : Z
}.

(** [PLSRenderTargetVulkan]; an auxiliary texture is [true] once it has
    been allocated. *)
Record PLSRenderTargetVulkan := {
  rt_width : Z;
  rt_height : Z;
  m_framebufferFormat : VkFormat;
  has_coverageTexture : bool;
  has_clipTexture : bool;
  has_scratchColorTexture : bool;
  has_coverageAtomicTexture : bool
}.

Record DrawBatch := {
  drawType : DrawType.t;
  elementCount : Z;
  baseElement : Z;
  batch_imageTexture : option TextureId;
  imageDrawDataOffset : Z;
  shaderFeatures : ShaderFeatures;
  needsBarrier : bool;
  vertexBuffer : option RenderBufferId;
  uvBuffer : option RenderBufferId;
  indexBuffer : option RenderBufferId
}.

Record FlushDescriptor := {
  renderTarget : RenderTargetId;
  interlockMode : InterlockMode.t;
  colorLoadAction : LoadAction.t;
  clearColor : Z;
  coverageClearValue : Z;
  drawList : list DrawBatch;
  firstPath : Z;
  firstContour : Z;
  firstPaint : Z;
  firstPaintAux : Z;
  firstTessVertexSpan : Z;
  firstComplexGradSpan : Z;
  tessVertexSpanCount : Z;
  tessDataHeight : Z;
  complexGradSpanCount : Z;
  complexGradRowsTop : Z;
  complexGradRowsHeight : Z;
  simpleGradDataOffsetInBytes : Z;
  simpleGradTexelsWidth : Z;
  simpleGradTexelsHeight : Z;
  flushUniformDataOffsetInBytes : Z;
  combinedShaderFeatures : ShaderFeatures;
  wireframe : bool;
  isFinalFlushOfFrame : bool;
  frameCompletionFence : option Fence
}.

#[global] Instance InterlockMode_countable : Countable InterlockMode.t.
Proof.
  refine (inj_countable'
            (fun m => match m with
                      | InterlockMode.rasterOrdering => 0%nat
                      | InterlockMode.atomics => 1%nat
                      | InterlockMode.depthStencil => 2%nat
                      end)
            (fun n => match n with
                      | O => InterlockMode.rasterOrdering
                      | S O => InterlockMode.atomics
                      | _ => InterlockMode.depthStencil
                      end) _).
  intros []; reflexivity.
Defined.

(** [PLSRenderContextVulkanImpl], the objects it points to, the driver's
    handle counter and the calls made so far. *)
Record State := {
  m_currentFrameIdx : Z;
  m_bufferRingIdx : Z;
  m_frameCompletionFences : list (option Fence);
  (** resource, expirationFrameIdx *)
  m_resourcePurgatory : list (Z * Z);
  m_descriptorSetPoolPool : list (DescriptorSetPool * Z);
  (** per interlock mode, the render pass variants created so far *)
  m_drawPipelineLayouts : gmap InterlockMode.t (gset Z);
  m_drawShaders : gset Z;
  m_drawPipelines : gset Z;
  m_nullImageTexture : TextureId;
  fillModeNonSolid : bool;
  textures : gmap TextureId PLSTextureVulkanImpl;
  renderTargets : gmap RenderTargetId PLSRenderTargetVulkan;
  nextHandle : Z;
  trace : list Event
}.

Definition set_currentFrameIdx (v : Z) (s : State) : State :=
  {| m_currentFrameIdx := v; m_bufferRingIdx := m_bufferRingIdx s;
     m_frameCompletionFences := m_frameCompletionFences s;
     m_resourcePurgatory := m_resourcePurgatory s;
     m_descriptorSetPoolPool := m_descriptorSetPoolPool s;
     m_drawPipelineLayouts := m_drawPipelineLayouts s;
     m_drawShaders := m_drawShaders s; m_drawPipelines := m_drawPipelines s;
     m_nullImageTexture := m_nullImageTexture s;
     fillModeNonSolid := fillModeNonSolid s; textures := textures s;
     renderTargets := renderTargets s; nextHandle := nextHandle s;
     trace := trace s |}.

Definition set_bufferRingIdx (v : Z) (s : State) : State :=
  {| m_currentFrameIdx := m_currentFrameIdx s; m_bufferRingIdx := v;
     m_frameCompletionFences := m_frameCompletionFences s;
     m_resourcePurgatory := m_resourcePurgatory s;
     m_descriptorSetPoolPool := m_descriptorSetPoolPool s;
     m_drawPipelineLayouts := m_drawPipelineLayouts s;
     m_drawShaders := m_drawShaders s; m_drawPipelines := m_drawPipelines s;
     m_nullImageTexture := m_nullImageTexture s;
     fillModeNonSolid := fillModeNonSolid s; textures := textures s;
     renderTargets := renderTargets s; nextHandle := nextHandle s;
     trace := trace s |}.

Definition set_frameCompletionFences (v : list (option Fence)) (s : State) : State :=
  {| m_currentFrameIdx := m_currentFrameIdx s; m_bufferRingIdx := m_bufferRingIdx s;
     m_frameCompletionFences := v;
     m_resourcePurgatory := m_resourcePurgatory s;
     m_descriptorSetPoolPool := m_descriptorSetPoolPool s;
     m_drawPipelineLayouts := m_drawPipelineLayouts s;
     m_drawShaders := m_drawShaders s; m_drawPipelines := m_drawPipelines s;
     m_nullImageTexture := m_nullImageTexture s;
     fillModeNonSolid := fillModeNonSolid s; textures := textures s;
     renderTargets := renderTargets s; nextHandle := nextHandle s;
     trace := trace s |}.

Definition set_resourcePurgatory (v : list (Z * Z)) (s : State) : State :=
  {| m_currentFrameIdx := m_currentFrameIdx s; m_bufferRingIdx := m_bufferRingIdx s;
     m_frameCompletionFences := m_frameCompletionFences s;
     m_resourcePurgatory := v;
     m_descriptorSetPoolPool := m_descriptorSetPoolPool s;
     m_drawPipelineLayouts := m_drawPipelineLayouts s;
     m_drawShaders := m_drawShaders s; m_drawPipelines := m_drawPipelines s;
     m_nullImageTexture := m_nullImageTexture s;
     fillModeNonSolid := fillModeNonSolid s; textures := textures s;
     renderTargets := renderTargets s; nextHandle := nextHandle s;
     trace := trace s |}.

Definition set_descriptorSetPoolPool (v : list (DescriptorSetPool * Z)) (s : State) : State :=
  {| m_currentFrameIdx := m_currentFrameIdx s; m_bufferRingIdx := m_bufferRingIdx s;
     m_frameCompletionFences := m_frameCompletionFences s;
     m_resourcePurgatory := m_resourcePurgatory s;
     m_descriptorSetPoolPool := v;
     m_drawPipelineLayouts := m_drawPipelineLayouts s;
     m_drawShaders := m_drawShaders s; m_drawPipelines := m_drawPipelines s;
     m_nullImageTexture := m_nullImageTexture s;
     fillModeNonSolid := fillModeNonSolid s; textures := textures s;
     renderTargets := renderTargets s; nextHandle := nextHandle s;
     trace := trace s |}.

Definition set_drawPipelineLayouts (v : gmap InterlockMode.t (gset Z)) (s : State) : State :=
  {| m_currentFrameIdx := m_currentFrameIdx s; m_bufferRingIdx := m_bufferRingIdx s;
     m_frameCompletionFences := m_frameCompletionFences s;
     m_resourcePurgatory := m_resourcePurgatory s;
     m_descriptorSetPoolPool := m_descriptorSetPoolPool s;
     m_drawPipelineLayouts := v;
     m_drawShaders := m_drawShaders s; m_drawPipelines := m_drawPipelines s;
     m_nullImageTexture := m_nullImageTexture s;
     fillModeNonSolid := fillModeNonSolid s; textures := textures s;
     renderTargets := renderTargets s; nextHandle := nextHandle s;
     trace := trace s |}.

Definition set_drawShaders (v : gset Z) (s : State) : State :=
  {| m_currentFrameIdx := m_currentFrameIdx s; m_bufferRingIdx := m_bufferRingIdx s;
     m_frameCompletionFences := m_frameCompletionFences s;
     m_resourcePurgatory := m_resourcePurgatory s;
     m_descriptorSetPoolPool := m_descriptorSetPoolPool s;
     m_drawPipelineLayouts := m_drawPipelineLayouts s;
     m_drawShaders := v; m_drawPipelines := m_drawPipelines s;
     m_nullImageTexture := m_nullImageTexture s;
     fillModeNonSolid := fillModeNonSolid s; textures := textures s;
     renderTargets := renderTargets s; nextHandle := nextHandle s;
     trace := trace s |}.

Definition set_drawPipelines (v : gset Z) (s : State) : State :=
  {| m_currentFrameIdx := m_currentFrameIdx s; m_bufferRingIdx := m_bufferRingIdx s;
     m_frameCompletionFences := m_frameCompletionFences s;
     m_resourcePurgatory := m_resourcePurgatory s;
     m_descriptorSetPoolPool := m_descriptorSetPoolPool s;
     m_drawPipelineLayouts := m_drawPipelineLayouts s;
     m_drawShaders := m_drawShaders s; m_drawPipelines := v;
     m_nullImageTexture := m_nullImageTexture s;
     fillModeNonSolid := fillModeNonSolid s; textures := textures s;
     renderTargets := renderTargets s; nextHandle := nextHandle s;
     trace := trace s |}.

Definition set_textures (v : gmap TextureId PLSTextureVulkanImpl) (s : State) : State :=
  {| m_currentFrameIdx := m_currentFrameIdx s; m_bufferRingIdx := m_bufferRingIdx s;
     m_frameCompletionFences := m_frameCompletionFences s;
     m_resourcePurgatory := m_resourcePurgatory s;
     m_descriptorSetPoolPool := m_descriptorSetPoolPool s;
     m_drawPipelineLayouts := m_drawPipelineLayouts s;
     m_drawShaders := m_drawShaders s; m_drawPipelines := m_drawPipelines s;
     m_nullImageTexture := m_nullImageTexture s;
     fillModeNonSolid := fillModeNonSolid s; textures := v;
     renderTargets := renderTargets s; nextHandle := nextHandle s;
     trace := trace s |}.

Definition set_renderTargets (v : gmap RenderTargetId PLSRenderTargetVulkan) (s : State) : State :=
  {| m_currentFrameIdx := m_currentFrameIdx s; m_bufferRingIdx := m_bufferRingIdx s;
     m_frameCompletionFences := m_frameCompletionFences s;
     m_resourcePurgatory := m_resourcePurgatory s;
     m_descriptorSetPoolPool := m_descriptorSetPoolPool s;
     m_drawPipelineLayouts := m_drawPipelineLayouts s;
     m_drawShaders := m_drawShaders s; m_drawPipelines := m_drawPipelines s;
     m_nullImageTexture := m_nullImageTexture s;
     fillModeNonSolid := fillModeNonSolid s; textures := textures s;
     renderTargets := v; nextHandle := nextHandle s;
     trace := trace s |}.

Definition set_nextHandle (v : Z) (s : State) : State :=
  {| m_currentFrameIdx := m_currentFrameIdx s; m_bufferRingIdx := m_bufferRingIdx s;
     m_frameCompletionFences := m_frameCompletionFences s;
     m_resourcePurgatory := m_resourcePurgatory s;
     m_descriptorSetPoolPool := m_descriptorSetPoolPool s;
     m_drawPipelineLayouts := m_drawPipelineLayouts s;
     m_drawShaders := m_drawShaders s; m_drawPipelines := m_drawPipelines s;
     m_nullImageTexture := m_nullImageTexture s;
     fillModeNonSolid := fillModeNonSolid s; textures := textures s;
     renderTargets := renderTargets s; nextHandle := v;
     trace := trace s |}.

Definition set_trace (v : list Event) (s : State) : State :=
  {| m_currentFrameIdx := m_currentFrameIdx s; m_bufferRingIdx := m_bufferRingIdx s;
     m_frameCompletionFences := m_frameCompletionFences s;
     m_resourcePurgatory := m_resourcePurgatory s;
     m_descriptorSetPoolPool := m_descriptorSetPoolPool s;
     m_drawPipelineLayouts := m_drawPipelineLayouts s;
     m_drawShaders := m_drawShaders s; m_drawPipelines := m_drawPipelines s;
     m_nullImageTexture := m_nullImageTexture s;
     fillModeNonSolid := fillModeNonSolid s; textures := textures s;
     renderTargets := renderTargets s; nextHandle := nextHandle s;
     trace := v |}.

(** ** Computations

    A member function is a state transformer.  It ends either normally or
    in [Undefined]: [RIVE_UNREACHABLE()] was reached or an invalid pointer
    or array index was used.  The state at that point is kept, so the
    calls made before are still in the trace. *)
Inductive Result (A : Type) : Type :=
| Ok (a : A) (s : State)
| Undefined (s : State).

Arguments Ok {A} a s.
Arguments Undefined {A} s.

Definition M (A : Type) : Type := State -> Result A.

#[global] Instance M_ret : MRet M := fun A a s => Ok a s.

#[global] Instance M_bind : MBind M := fun A B f m s =>
  match m s with
  | Ok a s' => f a s'
  | Undefined s' => Undefined s'
  end.

Definition finalState {A} (r : Result A) : State :=
  match r with
  | Ok _ s => s
  | Undefined s => s
  end.

Definition gets {A} (f : State -> A) : M A := fun s => Ok (f s) s.
Definition modify (f : State -> State) : M unit := fun s => Ok tt (f s).
Definition undefined {A} : M A := fun s => Undefined s.
Definition emit (e : Event) : M unit := modify (fun s => set_trace (trace s ++ [e]) s).

Fixpoint emits (es : list Event) : M unit :=
  match es with
  | [] => mret tt
  | e :: es' => emit e;; emits es'
  end.

Definition when (c : bool) (m : M unit) : M unit := if c then m else mret tt.

Definition i32 (z : Z) : Z := (z + 2 ^ 31) mod 2 ^ 32 - 2 ^ 31.

(** The memory barrier of the draw loop: colour attachment writes made
    visible to input attachment reads, both by region. *)
Definition subpassLoadBarrier : Event :=
  vkCmdPipelineBarrier VK_PIPELINE_STAGE_COLOR_ATTACHMENT_OUTPUT_BIT
                       VK_PIPELINE_STAGE_FRAGMENT_SHADER_BIT
                       VK_ACCESS_COLOR_ATTACHMENT_WRITE_BIT
                       VK_ACCESS_INPUT_ATTACHMENT_READ_BIT.

Module descriptor_pool_limits.
Definition kMaxImageTextureUpdates : Z := 256.
End descriptor_pool_limits.

Definition kMaxDescriptorSetPoolsInPool : Z := 64.
Definition kDrawPipelineOptionCount : Z := 1.

(** [enum class DrawPipelineOptions] *)
Definition DrawPipelineOptions_none : Z := 0.
Definition DrawPipelineOptions_wireframe : Z := Z.shiftl 1 0.

Section Engine.

Context `{PlsHeader}.

(** *** DrawPipelineLayout: the render-pass variant key *)

Definition kRenderPassVariantCount : Z := 6.

Definition RenderPassVariantIdx (framebufferFormat : VkFormat)
    (loadAction : LoadAction.t) : Z :=
  let loadActionIdx := LoadAction_int loadAction in
  Z.lor (Z.shiftl loadActionIdx 1)
        (if decide (framebufferFormat = VK_FORMAT_B8G8R8A8_UNORM) then 1 else 0).

Definition FormatFromRenderPassVariant (idx : Z) : VkFormat :=
  if Z.land idx 1 =? 0 then VK_FORMAT_R8G8B8A8_UNORM else VK_FORMAT_B8G8R8A8_UNORM.

(** The [switch] over [static_cast<pls::LoadAction>(idx >> 1)]; a value
    that is no enumerator falls through to [RIVE_UNREACHABLE()]. *)
Definition LoadOpFromRenderPassVariant (idx : Z) : option VkAttachmentLoadOp :=
  let loadAction := Z.shiftr idx 1 in
  if loadAction =? LoadAction_int LoadAction.preserveRenderTarget
  then Some VK_ATTACHMENT_LOAD_OP_LOAD
  else if loadAction =? LoadAction_int LoadAction.clear
  then Some VK_ATTACHMENT_LOAD_OP_CLEAR
  else if loadAction =? LoadAction_int LoadAction.dontCare
  then Some VK_ATTACHMENT_LOAD_OP_DONT_CARE
  else None.

Definition PLSAttachmentCount (mode : InterlockMode.t) : Z :=
  if decide (mode = InterlockMode.atomics) then 3 else 4.

(** [renderPassAt]: the render pass of a variant is created on first use. *)
Definition renderPassAt (mode : InterlockMode.t) (renderPassVariantIdx : Z)
    : M RenderPass :=
  layouts ← gets m_drawPipelineLayouts;
  match layouts !! mode with
  | None => undefined
  | Some created =>
      if negb ((0 <=? renderPassVariantIdx) && (renderPassVariantIdx <? kRenderPassVariantCount))
      then undefined
      else if bool_decide (renderPassVariantIdx ∈ created)
      then mret (drawRenderPass mode renderPassVariantIdx)
      else
        match LoadOpFromRenderPassVariant renderPassVariantIdx with
        | None => undefined
        | Some loadOp =>
            emit (vkCreateRenderPass mode renderPassVariantIdx loadOp);;
            modify (set_drawPipelineLayouts
                      (<[mode := {[renderPassVariantIdx]} ∪ created]> layouts));;
            mret (drawRenderPass mode renderPassVariantIdx)
        end
  end.

(** *** Descriptor set pools *)

Definition freshHandle : M Z :=
  h ← gets nextHandle;
  modify (set_nextHandle (h + 1));;
  mret h.

(** [DescriptorSetPool::DescriptorSetPool] *)
Definition newDescriptorSetPool : M DescriptorSetPool :=
  pool ← freshHandle;
  emit (vkCreateDescriptorPool pool);;
  mret pool.

(** [DescriptorSetPool::allocateDescriptorSet] *)
Definition allocateDescriptorSet (pool : DescriptorSetPool)
    (layout : DescriptorSetLayout) : M VkDescriptorSet :=
  h ← freshHandle;
  emit (vkAllocateDescriptorSets pool layout (descriptorSet h));;
  mret (descriptorSet h).

(** [DescriptorSetPool::freeDescriptorSets] *)
Definition freeDescriptorSets (pool : DescriptorSetPool) : M unit :=
  emit (vkResetDescriptorPool pool).

(** [DescriptorSetPool::onRefCntReachedZero]: the pool waits in
    [m_descriptorSetPoolPool], or is deleted when that list is full. *)
Definition onRefCntReachedZero (pool : DescriptorSetPool) : M unit :=
  poolPool ← gets m_descriptorSetPoolPool;
  frame ← gets m_currentFrameIdx;
  if Z.of_nat (length poolPool) <? kMaxDescriptorSetPoolsInPool
  then modify (set_descriptorSetPoolPool (poolPool ++ [(pool, expirationFrameIdx frame)]))
  else freeDescriptorSets pool;; emit (vkDestroyDescriptorPool pool).

(** [makeDescriptorSetPool] *)
Definition makeDescriptorSetPool : M DescriptorSetPool :=
  poolPool ← gets m_descriptorSetPoolPool;
  frame ← gets m_currentFrameIdx;
  match poolPool with
  | (pool, expiration) :: rest =>
      if expiration <=? frame
      then freeDescriptorSets pool;;
           modify (set_descriptorSetPoolPool rest);;
           mret pool
      else newDescriptorSetPool
  | [] => newDescriptorSetPool
  end.

(** *** prepareToMapBuffers *)

(** The [while] loop over the front of [m_resourcePurgatory]. *)
Fixpoint purgeExpired (frame : Z) (purgatory : list (Z * Z))
    : list Event * list (Z * Z) :=
  match purgatory with
  | (resource, expiration) :: rest =>
      if expiration <=? frame
      then let '(deleted, kept) := purgeExpired frame rest in
           (deleteResource resource :: deleted, kept)
      else ([], purgatory)
  | [] => ([], [])
  end.

Definition bufferRings : list BufferRing :=
  [ m_flushUniformBufferRing; m_imageDrawUniformBufferRing; m_pathBufferRing;
    m_paintBufferRing; m_paintAuxBufferRing; m_contourBufferRing;
    m_simpleColorRampsBufferRing; m_gradSpanBufferRing; m_tessSpanBufferRing;
    m_triangleBufferRing ].

(** Element [idx] of the array [m_frameCompletionFences]. *)
Definition fenceAt (fences : list (option Fence)) (idx : Z)
    : option (option Fence) :=
  if idx <? 0 then None else fences !! Z.to_nat idx.

Definition prepareToMapBuffers : M unit :=
  frame ← gets m_currentFrameIdx;
  modify (set_currentFrameIdx (u64 (frame + 1)));;
  ringIdx ← gets m_bufferRingIdx;
  modify (set_bufferRingIdx (Z.rem (ringIdx + 1) kBufferRingSize));;
  ringIdx ← gets m_bufferRingIdx;
  (* Wait for the existing resources to finish before we release/recycle them. *)
  fences ← gets m_frameCompletionFences;
  match fenceAt fences ringIdx with
  | None => undefined
  | Some slot =>
      modify (set_frameCompletionFences (<[Z.to_nat ringIdx := None]> fences));;
      match slot with
      | Some fence => emit (fence_wait fence)
      | None => mret tt
      end;;
      (* Delete resources that are no longer referenced by in-flight command buffers. *)
      frame ← gets m_currentFrameIdx;
      purgatory ← gets m_resourcePurgatory;
      let '(deleted, kept) := purgeExpired frame purgatory in
      emits deleted;;
      modify (set_resourcePurgatory kept);;
      (* Synchronize buffer sizes in the buffer rings. *)
      emits (map (fun ring => synchronizeSizeAt ring ringIdx) bufferRings)
  end.

(** *** PLSTextureVulkanImpl::synchronize *)

(** The mipmap loop, [fuel] levels from [level] on. *)
Fixpoint generateMipmaps (fuel : nat) (tex : TextureId) (level : Z)
    (srcSize : Z * Z) : list Event :=
  match fuel with
  | O => []
  | S fuel' =>
      let dstSize := (Z.max (Z.shiftr (fst srcSize) 1) 1,
                      Z.max (Z.shiftr (snd srcSize) 1) 1) in
      insert_image_memory_barrier (imageTexture tex)
        VK_IMAGE_LAYOUT_TRANSFER_DST_OPTIMAL VK_IMAGE_LAYOUT_TRANSFER_SRC_OPTIMAL
        (Some (level - 1, 1))
      :: vkCmdBlitImage (imageTexture tex) (level - 1) level srcSize dstSize
      :: generateMipmaps fuel' tex (level + 1) dstSize
  end.

Definition synchronizeCommands (tex : TextureId) (t : PLSTextureVulkanImpl)
    : list Event :=
  let mipLevels := tex_mipLevels t in
  [ insert_image_memory_barrier (imageTexture tex)
      VK_IMAGE_LAYOUT_UNDEFINED VK_IMAGE_LAYOUT_TRANSFER_DST_OPTIMAL
      (Some (0, mipLevels));
    vkCmdCopyBufferToImage (imageUploadBuffer tex) (imageTexture tex) 0 0
      (tex_width t) (tex_height t) ]
  ++ (if 1 <? mipLevels
      then generateMipmaps (Z.to_nat (mipLevels - 1)) tex 1
             (i32 (tex_width t), i32 (tex_height t))
           ++ [ insert_image_memory_barrier (imageTexture tex)
                  VK_IMAGE_LAYOUT_TRANSFER_SRC_OPTIMAL
                  VK_IMAGE_LAYOUT_SHADER_READ_ONLY_OPTIMAL
                  (Some (0, mipLevels - 1)) ]
      else [])
  ++ [ insert_image_memory_barrier (imageTexture tex)
         VK_IMAGE_LAYOUT_TRANSFER_DST_OPTIMAL
         VK_IMAGE_LAYOUT_SHADER_READ_ONLY_OPTIMAL
         (Some (mipLevels - 1, 1)) ].

Definition setUploadBuffer (b : bool) (t : PLSTextureVulkanImpl) : PLSTextureVulkanImpl :=
  {| tex_width := tex_width t; tex_height := tex_height t;
     tex_mipLevels := tex_mipLevels t; m_imageUploadBuffer := b;
     m_imageTextureDescriptorSet := m_imageTextureDescriptorSet t;
     m_descriptorSetFrameIdx := m_descriptorSetFrameIdx t |}.

Definition setDescriptorSet (set : VkDescriptorSet) (t : PLSTextureVulkanImpl)
    : PLSTextureVulkanImpl :=
  {| tex_width := tex_width t; tex_height := tex_height t;
     tex_mipLevels := tex_mipLevels t; m_imageUploadBuffer := m_imageUploadBuffer t;
     m_imageTextureDescriptorSet := set;
     m_descriptorSetFrameIdx := m_descriptorSetFrameIdx t |}.

Definition setDescriptorSetFrameIdx (frame : Z) (t : PLSTextureVulkanImpl)
    : PLSTextureVulkanImpl :=
  {| tex_width := tex_width t; tex_height := tex_height t;
     tex_mipLevels := tex_mipLevels t; m_imageUploadBuffer := m_imageUploadBuffer t;
     m_imageTextureDescriptorSet := m_imageTextureDescriptorSet t;
     m_descriptorSetFrameIdx := frame |}.

(** Dereferencing a texture pointer. *)
Definition texture (tex : TextureId) : M PLSTextureVulkanImpl :=
  texs ← gets textures;
  match texs !! tex with
  | Some t => mret t
  | None => undefined
  end.

Definition updateTexture (tex : TextureId)
    (f : PLSTextureVulkanImpl -> PLSTextureVulkanImpl) : M unit :=
  t ← texture tex;
  texs ← gets textures;
  modify (set_textures (<[tex := f t]> texs)).

(** [if (tex->hasUpdates()) tex->synchronize(commandBuffer, this)] *)
Definition synchronizeIfUpdated (tex : TextureId) : M unit :=
  t ← texture tex;
  if m_imageUploadBuffer t
  then emits (synchronizeCommands tex t);;
       updateTexture tex (setUploadBuffer false)
  else mret tt.

Fixpoint synchronizeImageTextures (batches : list DrawBatch) : M unit :=
  match batches with
  | [] => mret tt
  | batch :: rest =>
      match batch_imageTexture batch with
      | Some tex => synchronizeIfUpdated tex
      | None => mret tt
      end;;
      synchronizeImageTextures rest
  end.

(** *** PLSRenderTargetVulkan::synchronize *)

Definition renderTargetAt (rt : RenderTargetId) : M PLSRenderTargetVulkan :=
  targets ← gets renderTargets;
  match targets !! rt with
  | Some target => mret target
  | None => undefined
  end.

(** Allocating one auxiliary texture: [makeTexture], the layout transition
    [UNDEFINED -> GENERAL], [makeTextureView]. *)
Definition allocateAuxTexture (img : Image) (format : VkFormat)
    (target : PLSRenderTargetVulkan) : list Event :=
  [ makeTexture img format (rt_width target) (rt_height target);
    insert_image_memory_barrier img VK_IMAGE_LAYOUT_UNDEFINED VK_IMAGE_LAYOUT_GENERAL None;
    makeTextureView img ].

Definition PLSRenderTargetVulkan_synchronize (rt : RenderTargetId)
    (mode : InterlockMode.t) : M unit :=
  target ← renderTargetAt rt;
  let coverage :=
    bool_decide (mode = InterlockMode.rasterOrdering) && negb (has_coverageTexture target) in
  let clip := negb (has_clipTexture target) in
  let scratch :=
    bool_decide (mode = InterlockMode.rasterOrdering) && negb (has_scratchColorTexture target) in
  let atomic :=
    bool_decide (mode = InterlockMode.atomics) && negb (has_coverageAtomicTexture target) in
  when coverage (emits (allocateAuxTexture (m_coverageTexture rt) VK_FORMAT_R32_UINT target));;
  when clip (emits (allocateAuxTexture (m_clipTexture rt) VK_FORMAT_R32_UINT target));;
  when scratch
    (emits (allocateAuxTexture (m_scratchColorTexture rt) VK_FORMAT_R8G8B8A8_UNORM target));;
  when atomic
    (emits (allocateAuxTexture (m_coverageAtomicTexture rt) VK_FORMAT_R32_UINT target));;
  targets ← gets renderTargets;
  modify (set_renderTargets
            (<[rt := {| rt_width := rt_width target; rt_height := rt_height target;
                        m_framebufferFormat := m_framebufferFormat target;
                        has_coverageTexture := has_coverageTexture target || coverage;
                        has_clipTexture := true;
                        has_scratchColorTexture := has_scratchColorTexture target || scratch;
                        has_coverageAtomicTexture :=
                          has_coverageAtomicTexture target || atomic |}]> targets)).

(** *** DrawShader and DrawPipeline *)

(** [DrawShader::DrawShader]: the two [switch]es over the draw type. *)
Definition DrawShader_new (shaderKey : Z) (type : DrawType.t)
    (mode : InterlockMode.t) : M unit :=
  if decide (mode = InterlockMode.rasterOrdering)
  then match type with
       | DrawType.midpointFanPatches | DrawType.outerCurvePatches
       | DrawType.interiorTriangulation | DrawType.imageMesh =>
           emit (vkCreateShaderModules shaderKey)
       | DrawType.imageRect | DrawType.plsAtomicResolve
       | DrawType.plsAtomicInitialize | DrawType.stencilClipReset =>
           undefined
       end
  else match type with
       | DrawType.midpointFanPatches | DrawType.outerCurvePatches
       | DrawType.interiorTriangulation | DrawType.imageRect
       | DrawType.imageMesh | DrawType.plsAtomicResolve =>
           emit (vkCreateShaderModules shaderKey)
       | DrawType.plsAtomicInitialize | DrawType.stencilClipReset =>
           undefined
       end.

(** [DrawPipeline::DrawPipeline] *)
Definition DrawPipeline_new (pipelineKey : Z) (type : DrawType.t)
    (mode : InterlockMode.t) (features : ShaderFeatures) (options : Z) : M unit :=
  let shaderKey := u32 (ShaderUniqueKey type features mode) in
  shaders ← gets m_drawShaders;
  (if bool_decide (shaderKey ∈ shaders)
   then mret tt
   else DrawShader_new shaderKey type mode;;
        shaders ← gets m_drawShaders;
        modify (set_drawShaders ({[shaderKey]} ∪ shaders)));;
  match type with
  | DrawType.plsAtomicInitialize | DrawType.stencilClipReset => undefined
  | _ =>
      emit (vkCreateGraphicsPipelines pipelineKey
              (negb (Z.land options DrawPipelineOptions_wireframe =? 0)))
  end.

(** *** flush: the draw loop *)

(** The locals the loop over the draw list updates. *)
Record LoopState := {
  descriptorSetPool : DescriptorSetPool;
  imageTextureUpdateCount : Z;
  needsBarrierBeforeNextDraw : bool
}.

(** [if (imageTextureUpdateCount >= kMaxImageTextureUpdates)]: the pool
    is full, the loop goes on with a new one. *)
Definition makeRoomForImageTextureUpdate (loop : LoopState) : M LoopState :=
  if descriptor_pool_limits.kMaxImageTextureUpdates <=? imageTextureUpdateCount loop
  then
    (* We ran out of room for image texture updates. Allocate a new pool. *)
    pool ← makeDescriptorSetPool;
    onRefCntReachedZero (descriptorSetPool loop);;
    mret {| descriptorSetPool := pool;
            imageTextureUpdateCount := 0;
            needsBarrierBeforeNextDraw := needsBarrierBeforeNextDraw loop |}
  else mret loop.

(** Update the image's "texture binding" descriptor set: allocate a set,
    store it in the texture, write the texture's view into it, and mark the
    texture with the current frame. *)
Definition updateImageTextureDescriptorSet (mode : InterlockMode.t) (tex : TextureId)
    (frame : Z) (loop : LoopState) : M LoopState :=
  set ← allocateDescriptorSet (descriptorSetPool loop) (perDrawLayout mode);
  updateTexture tex (setDescriptorSet set);;
  emit (update_image_descriptor_sets set IMAGE_TEXTURE_IDX
          VK_DESCRIPTOR_TYPE_SAMPLED_IMAGE (viewOf (imageTexture tex))
          VK_IMAGE_LAYOUT_SHADER_READ_ONLY_OPTIMAL);;
  updateTexture tex (setDescriptorSetFrameIdx frame);;
  mret {| descriptorSetPool := descriptorSetPool loop;
          imageTextureUpdateCount := u32 (imageTextureUpdateCount loop + 1);
          needsBarrierBeforeNextDraw := needsBarrierBeforeNextDraw loop |}.

(** [vkCmdBindDescriptorSets] with the per-flush set, the texture's set and
    the batch's offset into the imageDraw uniforms. *)
Definition bindImageDescriptorSets (mode : InterlockMode.t)
    (perFlushDescriptorSet : VkDescriptorSet) (tex : TextureId) (batch : DrawBatch)
    : M unit :=
  t ← texture tex;
  emit (vkCmdBindDescriptorSets (drawPipelineLayout mode) PER_FLUSH_BINDINGS_SET
          [perFlushDescriptorSet; m_imageTextureDescriptorSet t]
          [imageDrawDataOffset batch]).

(** The image texture binding of a batch: the texture's descriptor set is
    made anew when its [m_descriptorSetFrameIdx] is not the current frame,
    and bound together with the batch's dynamic uniform offset. *)
Definition bindImageTexture (mode : InterlockMode.t)
    (perFlushDescriptorSet : VkDescriptorSet) (batch : DrawBatch)
    (loop : LoopState) : M LoopState :=
  match batch_imageTexture batch with
  | None => mret loop
  | Some tex =>
      t ← texture tex;
      frame ← gets m_currentFrameIdx;
      loop ← (if bool_decide (m_descriptorSetFrameIdx t ≠ frame)
              then
                loop ← makeRoomForImageTextureUpdate loop;
                updateImageTextureDescriptorSet mode tex frame loop
              else mret loop);
      bindImageDescriptorSets mode perFlushDescriptorSet tex batch;;
      mret loop
  end.

(** The pipeline key of a batch. *)
Definition batchShaderFeatures (desc : FlushDescriptor) (batch : DrawBatch)
    : ShaderFeatures :=
  if decide (interlockMode desc = InterlockMode.atomics)
  then combinedShaderFeatures desc
  else shaderFeatures batch.

Definition drawPipelineOptions (desc : FlushDescriptor) (nonSolid : bool) : Z :=
  if nonSolid && wireframe desc
  then Z.lor DrawPipelineOptions_none DrawPipelineOptions_wireframe
  else DrawPipelineOptions_none.

Definition pipelineKeyOf (desc : FlushDescriptor) (renderPassVariantIdx : Z)
    (nonSolid : bool) (batch : DrawBatch) : Z :=
  let pipelineKey :=
    u32 (ShaderUniqueKey (drawType batch) (batchShaderFeatures desc batch)
           (interlockMode desc)) in
  let pipelineKey :=
    Z.lor (u32 (Z.shiftl pipelineKey kDrawPipelineOptionCount))
          (drawPipelineOptions desc nonSolid) in
  u32 (pipelineKey * kRenderPassVariantCount + renderPassVariantIdx).

(** [m_drawPipelines.try_emplace(pipelineKey, ...)] and [vkCmdBindPipeline]. *)
Definition bindDrawPipeline (desc : FlushDescriptor) (renderPassVariantIdx : Z)
    (batch : DrawBatch) : M unit :=
  nonSolid ← gets fillModeNonSolid;
  let pipelineKey := pipelineKeyOf desc renderPassVariantIdx nonSolid batch in
  pipelines ← gets m_drawPipelines;
  (if bool_decide (pipelineKey ∈ pipelines)
   then mret tt
   else DrawPipeline_new pipelineKey (drawType batch) (interlockMode desc)
          (batchShaderFeatures desc batch) (drawPipelineOptions desc nonSolid);;
        pipelines ← gets m_drawPipelines;
        modify (set_drawPipelines ({[pipelineKey]} ∪ pipelines)));;
  emit (vkCmdBindPipeline (drawPipeline pipelineKey)).

(** The vertex and index buffers a batch binds, by draw type. *)
Definition batchBuffers (ringIdx : Z) (batch : DrawBatch) : option (list Event) :=
  match drawType batch with
  | DrawType.midpointFanPatches | DrawType.outerCurvePatches =>
      Some [ vkCmdBindVertexBuffers 0 m_pathPatchVertexBuffer;
             vkCmdBindIndexBuffer m_pathPatchIndexBuffer ]
  | DrawType.interiorTriangulation =>
      Some [ vkCmdBindVertexBuffers 0 (vkBufferAt m_triangleBufferRing ringIdx) ]
  | DrawType.imageRect =>
      Some [ vkCmdBindVertexBuffers 0 m_imageRectVertexBuffer;
             vkCmdBindIndexBuffer m_imageRectIndexBuffer ]
  | DrawType.imageMesh =>
      match vertexBuffer batch, uvBuffer batch, indexBuffer batch with
      | Some vertices, Some uvs, Some indices =>
          Some [ vkCmdBindVertexBuffers 0 (frontVkBuffer vertices);
                 vkCmdBindVertexBuffers 1 (frontVkBuffer uvs);
                 vkCmdBindIndexBuffer (frontVkBuffer indices) ]
      | _, _, _ => None
      end
  | DrawType.plsAtomicResolve => Some []
  | DrawType.plsAtomicInitialize | DrawType.stencilClipReset => None
  end.

(** The draw call of a batch, by draw type. *)
Definition batchDraw (batch : DrawBatch) : option Event :=
  match drawType batch with
  | DrawType.midpointFanPatches | DrawType.outerCurvePatches =>
      Some (vkCmdDrawIndexed (PatchIndexCount (drawType batch)) (elementCount batch)
              (PatchBaseIndex (drawType batch)) 0 (baseElement batch))
  | DrawType.interiorTriangulation =>
      Some (vkCmdDraw (elementCount batch) 1 (baseElement batch) 0)
  | DrawType.imageRect =>
      Some (vkCmdDrawIndexed kImageRectIndices_size 1 (baseElement batch) 0 0)
  | DrawType.imageMesh =>
      Some (vkCmdDrawIndexed (elementCount batch) 1 (baseElement batch) 0 0)
  | DrawType.plsAtomicResolve => Some (vkCmdDraw 4 1 0 0)
  | DrawType.plsAtomicInitialize | DrawType.stencilClipReset => None
  end.

(** The [switch (drawType)] of the loop; the last two draw types, and a
    mesh without its buffers, have no defined behaviour. *)
Definition issueDraw (ringIdx : Z) (batch : DrawBatch) : M unit :=
  match batchBuffers ringIdx batch, batchDraw batch with
  | Some buffers, Some draw => emits buffers;; emit draw
  | _, _ => undefined
  end.

(** One iteration of [for (const DrawBatch& batch : *desc.drawList)]. *)
Definition drawBatch (desc : FlushDescriptor) (renderPassVariantIdx : Z)
    (perFlushDescriptorSet : VkDescriptorSet) (batch : DrawBatch)
    (loop : LoopState) : M LoopState :=
  if elementCount batch =? 0
  then mret loop (* continue *)
  else
    loop ← bindImageTexture (interlockMode desc) perFlushDescriptorSet batch loop;
    bindDrawPipeline desc renderPassVariantIdx batch;;
    when (needsBarrierBeforeNextDraw loop) (emit subpassLoadBarrier);;
    ringIdx ← gets m_bufferRingIdx;
    issueDraw ringIdx batch;;
    mret {| descriptorSetPool := descriptorSetPool loop;
            imageTextureUpdateCount := imageTextureUpdateCount loop;
            needsBarrierBeforeNextDraw :=
              bool_decide (interlockMode desc = InterlockMode.atomics)
              && needsBarrier batch |}.

Fixpoint executeDrawList (desc : FlushDescriptor) (renderPassVariantIdx : Z)
    (perFlushDescriptorSet : VkDescriptorSet) (batches : list DrawBatch)
    (loop : LoopState) : M LoopState :=
  match batches with
  | [] => mret loop
  | batch :: rest =>
      loop ← drawBatch desc renderPassVariantIdx perFlushDescriptorSet batch loop;
      executeDrawList desc renderPassVariantIdx perFlushDescriptorSet rest loop
  end.

(** *** flush: the passes before the draw loop *)

(** Render the complex color ramps to the gradient texture. *)
Definition renderComplexGradients (desc : FlushDescriptor) (pool : DescriptorSetPool)
    : M unit :=
  if 0 <? complexGradSpanCount desc
  then
    let renderArea :=
      {| offset_x := 0; offset_y := i32 (complexGradRowsTop desc);
         extent_width := kGradTextureWidth;
         extent_height := complexGradRowsHeight desc |} in
    ringIdx ← gets m_bufferRingIdx;
    emits [ vkCmdBeginRenderPass colorRampRenderPass m_gradTextureFramebuffer renderArea [];
            vkCmdBindPipeline colorRampPipeline;
            vkCmdSetViewport renderArea;
            vkCmdSetScissor renderArea;
            vkCmdBindVertexBuffers 0 (vkBufferAt m_gradSpanBufferRing ringIdx) ];;
    set ← allocateDescriptorSet pool colorRampDescriptorSetLayout;
    emits [ update_buffer_descriptor_sets set FLUSH_UNIFORM_BUFFER_IDX
              VK_DESCRIPTOR_TYPE_UNIFORM_BUFFER
              [ {| info_buffer := vkBufferAt m_flushUniformBufferRing ringIdx;
                   info_offset := flushUniformDataOffsetInBytes desc;
                   info_range := range_bytes sizeof_FlushUniforms |} ];
            vkCmdBindDescriptorSets colorRampPipelineLayout PER_FLUSH_BINDINGS_SET [set] [];
            vkCmdDraw 4 (complexGradSpanCount desc) 0 (firstComplexGradSpan desc);
            vkCmdEndRenderPass ]
  else mret tt.

(** Copy the simple color ramps to the gradient texture. *)
Definition copySimpleGradients (desc : FlushDescriptor) : M unit :=
  if 0 <? simpleGradTexelsHeight desc
  then
    ringIdx ← gets m_bufferRingIdx;
    emit (vkCmdCopyBufferToImage (vkBufferAt m_simpleColorRampsBufferRing ringIdx)
            m_gradientTexture (simpleGradDataOffsetInBytes desc) kGradTextureWidth
            (simpleGradTexelsWidth desc) (simpleGradTexelsHeight desc))
  else mret tt.

(** Tessellate all curves into vertices in the tessellation texture. *)
Definition tessellate (desc : FlushDescriptor) (pool : DescriptorSetPool) : M unit :=
  if 0 <? tessVertexSpanCount desc
  then
    let renderArea :=
      {| offset_x := 0; offset_y := 0;
         extent_width := kTessTextureWidth; extent_height := tessDataHeight desc |} in
    ringIdx ← gets m_bufferRingIdx;
    emits [ vkCmdBeginRenderPass tessellateRenderPass m_tessTextureFramebuffer renderArea [];
            vkCmdBindPipeline tessellatePipeline;
            vkCmdSetViewport renderArea;
            vkCmdSetScissor renderArea;
            vkCmdBindVertexBuffers 0 (vkBufferAt m_tessSpanBufferRing ringIdx);
            vkCmdBindIndexBuffer m_tessSpanIndexBuffer ];;
    set ← allocateDescriptorSet pool tessellateDescriptorSetLayout;
    emits [ update_buffer_descriptor_sets set PATH_BUFFER_IDX
              VK_DESCRIPTOR_TYPE_STORAGE_BUFFER
              [ {| info_buffer := vkBufferAt m_pathBufferRing ringIdx;
                   info_offset := u64 (firstPath desc * sizeof_PathData);
                   info_range := VK_WHOLE_SIZE |} ];
            update_buffer_descriptor_sets set CONTOUR_BUFFER_IDX
              VK_DESCRIPTOR_TYPE_STORAGE_BUFFER
              [ {| info_buffer := vkBufferAt m_contourBufferRing ringIdx;
                   info_offset := u64 (firstContour desc * sizeof_ContourData);
                   info_range := VK_WHOLE_SIZE |} ];
            update_buffer_descriptor_sets set FLUSH_UNIFORM_BUFFER_IDX
              VK_DESCRIPTOR_TYPE_UNIFORM_BUFFER
              [ {| info_buffer := vkBufferAt m_flushUniformBufferRing ringIdx;
                   info_offset := flushUniformDataOffsetInBytes desc;
                   info_range := VK_WHOLE_SIZE |} ];
            vkCmdBindDescriptorSets tessellatePipelineLayout PER_FLUSH_BINDINGS_SET [set] [];
            vkCmdDrawIndexed kTessSpanIndices_size (tessVertexSpanCount desc) 0 0
              (firstTessVertexSpan desc);
            vkCmdEndRenderPass ]
  else mret tt.

(** [m_drawPipelineLayouts[interlockIdx]] is built on first use. *)
Definition ensureDrawPipelineLayout (mode : InterlockMode.t) : M unit :=
  layouts ← gets m_drawPipelineLayouts;
  match layouts !! mode with
  | Some _ => mret tt
  | None =>
      emit (newDrawPipelineLayout mode);;
      modify (set_drawPipelineLayouts (<[mode := ∅]> layouts))
  end.

Definition drawFramebufferInfo (desc : FlushDescriptor)
    (target : PLSRenderTargetVulkan) (drawRenderPass : RenderPass) : FramebufferInfo :=
  let rt := renderTarget desc in
  let isAtomics := bool_decide (interlockMode desc = InterlockMode.atomics) in
  {| fb_renderPass := drawRenderPass;
     fb_attachmentCount := PLSAttachmentCount (interlockMode desc);
     fb_attachments :=
       [ viewOf (m_targetTexture rt);
         (if isAtomics then viewOf (m_clipTexture rt) else viewOf (m_coverageTexture rt));
         viewOf (m_clipTexture rt);
         (if isAtomics then VK_NULL_HANDLE_view else viewOf (m_scratchColorTexture rt)) ];
     fb_width := u32 (rt_width target);
     fb_height := u32 (rt_height target) |}.

(** What the passes before the draw pass hand over to it. *)
Record DrawPass := {
  pass_pool : DescriptorSetPool;
  pass_renderPassVariantIdx : Z;
  pass_renderPass : RenderPass;
  pass_framebuffer : FramebufferInfo;
  pass_renderArea : VkRect2D
}.

(** From the top of [flush] (after the interlock mode test) down to the
    creation of the framebuffer. *)
Definition prepareDrawPass (desc : FlushDescriptor) : M DrawPass :=
  pool ← makeDescriptorSetPool;
  emit (insert_image_memory_barrier m_gradientTexture
          VK_IMAGE_LAYOUT_UNDEFINED VK_IMAGE_LAYOUT_COLOR_ATTACHMENT_OPTIMAL None);;
  renderComplexGradients desc pool;;
  emit (insert_image_memory_barrier m_gradientTexture
          VK_IMAGE_LAYOUT_COLOR_ATTACHMENT_OPTIMAL VK_IMAGE_LAYOUT_TRANSFER_DST_OPTIMAL None);;
  copySimpleGradients desc;;
  emit (insert_image_memory_barrier m_gradientTexture
          VK_IMAGE_LAYOUT_TRANSFER_DST_OPTIMAL VK_IMAGE_LAYOUT_SHADER_READ_ONLY_OPTIMAL None);;
  emit (insert_image_memory_barrier m_tessVertexTexture
          VK_IMAGE_LAYOUT_UNDEFINED VK_IMAGE_LAYOUT_COLOR_ATTACHMENT_OPTIMAL None);;
  tessellate desc pool;;
  emit (insert_image_memory_barrier m_tessVertexTexture
          VK_IMAGE_LAYOUT_COLOR_ATTACHMENT_OPTIMAL VK_IMAGE_LAYOUT_SHADER_READ_ONLY_OPTIMAL None);;
  (* Apply pending texture updates. *)
  nullTexture ← gets m_nullImageTexture;
  synchronizeIfUpdated nullTexture;;
  synchronizeImageTextures (drawList desc);;
  PLSRenderTargetVulkan_synchronize (renderTarget desc) (interlockMode desc);;
  target ← renderTargetAt (renderTarget desc);
  let renderPassVariantIdx :=
    RenderPassVariantIdx (m_framebufferFormat target) (colorLoadAction desc) in
  ensureDrawPipelineLayout (interlockMode desc);;
  drawRenderPass ← renderPassAt (interlockMode desc) renderPassVariantIdx;
  let framebuffer := drawFramebufferInfo desc target drawRenderPass in
  emit (makeFramebuffer framebuffer);;
  mret {| pass_pool := pool;
          pass_renderPassVariantIdx := renderPassVariantIdx;
          pass_renderPass := drawRenderPass;
          pass_framebuffer := framebuffer;
          pass_renderArea :=
            {| offset_x := 0; offset_y := 0;
               extent_width := u32 (rt_width target);
               extent_height := u32 (rt_height target) |} |}.

Definition clearValues (desc : FlushDescriptor) : list VkClearValue :=
  [ color_clear_rgba32f (clearColor desc);
    color_clear_r32ui (coverageClearValue desc);
    zero_clear ].

(** The initial value of [needsBarrierBeforeNextDraw].  The test of
    [ENABLE_ADVANCED_BLEND] in the source is compiled out ([#if 0]). *)
Definition initialNeedsBarrier (desc : FlushDescriptor) : bool :=
  bool_decide (interlockMode desc = InterlockMode.atomics)
  && bool_decide (colorLoadAction desc = LoadAction.clear).

(** In atomics mode: clear the coverage texture, which is not an
    attachment. *)
Definition clearAtomicCoverage (desc : FlushDescriptor) : M unit :=
  if decide (interlockMode desc = InterlockMode.atomics)
  then
    let coverage := m_coverageAtomicTexture (renderTarget desc) in
    emits [ insert_image_memory_barrier coverage
              VK_IMAGE_LAYOUT_GENERAL VK_IMAGE_LAYOUT_TRANSFER_DST_OPTIMAL None;
            vkCmdClearColorImage coverage (color_clear_r32ui (coverageClearValue desc));
            insert_image_memory_barrier coverage
              VK_IMAGE_LAYOUT_TRANSFER_DST_OPTIMAL VK_IMAGE_LAYOUT_GENERAL None ]
  else mret tt.

(** [vkCmdBeginRenderPass] of the draw pass; the colour attachment is
    cleared here when the variant's load op is [CLEAR]. *)
Definition beginDrawPass (desc : FlushDescriptor) (pass : DrawPass) : Event :=
  vkCmdBeginRenderPass (pass_renderPass pass) (framebufferOf (pass_framebuffer pass))
    (pass_renderArea pass) (clearValues desc).

(** The per-flush and the PLS input attachment descriptor sets, and their
    binding. *)
Definition bindFlushDescriptorSets (desc : FlushDescriptor) (pass : DrawPass)
    : M VkDescriptorSet :=
  let mode := interlockMode desc in
  let rt := renderTarget desc in
  let isAtomics := bool_decide (mode = InterlockMode.atomics) in
  ringIdx ← gets m_bufferRingIdx;
  perFlushDescriptorSet ← allocateDescriptorSet (pass_pool pass) (perFlushLayout mode);
  emits [ update_image_descriptor_sets perFlushDescriptorSet TESS_VERTEX_TEXTURE_IDX
            VK_DESCRIPTOR_TYPE_SAMPLED_IMAGE (viewOf m_tessVertexTexture)
            VK_IMAGE_LAYOUT_SHADER_READ_ONLY_OPTIMAL;
          update_image_descriptor_sets perFlushDescriptorSet GRAD_TEXTURE_IDX
            VK_DESCRIPTOR_TYPE_SAMPLED_IMAGE (viewOf m_gradientTexture)
            VK_IMAGE_LAYOUT_SHADER_READ_ONLY_OPTIMAL;
          update_buffer_descriptor_sets perFlushDescriptorSet PATH_BUFFER_IDX
            VK_DESCRIPTOR_TYPE_STORAGE_BUFFER
            [ {| info_buffer := vkBufferAt m_pathBufferRing ringIdx;
                 info_offset := u64 (firstPath desc * sizeof_PathData);
                 info_range := VK_WHOLE_SIZE |} ];
          update_buffer_descriptor_sets perFlushDescriptorSet PAINT_BUFFER_IDX
            VK_DESCRIPTOR_TYPE_STORAGE_BUFFER
            [ {| info_buffer := vkBufferAt m_paintBufferRing ringIdx;
                 info_offset := u64 (firstPaint desc * sizeof_PaintData);
                 info_range := VK_WHOLE_SIZE |};
              {| info_buffer := vkBufferAt m_paintAuxBufferRing ringIdx;
                 info_offset := u64 (firstPaintAux desc * sizeof_PaintAuxData);
                 info_range := VK_WHOLE_SIZE |} ];
          update_buffer_descriptor_sets perFlushDescriptorSet CONTOUR_BUFFER_IDX
            VK_DESCRIPTOR_TYPE_STORAGE_BUFFER
            [ {| info_buffer := vkBufferAt m_contourBufferRing ringIdx;
                 info_offset := u64 (firstContour desc * sizeof_ContourData);
                 info_range := VK_WHOLE_SIZE |} ];
          update_buffer_descriptor_sets perFlushDescriptorSet FLUSH_UNIFORM_BUFFER_IDX
            VK_DESCRIPTOR_TYPE_UNIFORM_BUFFER
            [ {| info_buffer := vkBufferAt m_flushUniformBufferRing ringIdx;
                 info_offset := flushUniformDataOffsetInBytes desc;
                 info_range := range_bytes sizeof_FlushUniforms |} ];
          update_buffer_descriptor_sets perFlushDescriptorSet IMAGE_DRAW_UNIFORM_BUFFER_IDX
            VK_DESCRIPTOR_TYPE_UNIFORM_BUFFER_DYNAMIC
            [ {| info_buffer := vkBufferAt m_imageDrawUniformBufferRing ringIdx;
                 info_offset := 0;
                 info_range := range_bytes sizeof_ImageDrawUniforms |} ] ];;
  inputAttachmentDescriptorSet ← allocateDescriptorSet (pass_pool pass) (plsLayout mode);
  emits [ update_image_descriptor_sets inputAttachmentDescriptorSet COLOR_PLANE_IDX
            VK_DESCRIPTOR_TYPE_INPUT_ATTACHMENT (viewOf (m_targetTexture rt))
            VK_IMAGE_LAYOUT_GENERAL;
          update_image_descriptor_sets inputAttachmentDescriptorSet COVERAGE_PLANE_IDX
            (if isAtomics then VK_DESCRIPTOR_TYPE_STORAGE_IMAGE
             else VK_DESCRIPTOR_TYPE_INPUT_ATTACHMENT)
            (if isAtomics then viewOf (m_coverageAtomicTexture rt)
             else viewOf (m_coverageTexture rt))
            VK_IMAGE_LAYOUT_GENERAL;
          update_image_descriptor_sets inputAttachmentDescriptorSet CLIP_PLANE_IDX
            VK_DESCRIPTOR_TYPE_INPUT_ATTACHMENT (viewOf (m_clipTexture rt))
            VK_IMAGE_LAYOUT_GENERAL ];;
  when (bool_decide (mode = InterlockMode.rasterOrdering))
    (emit (update_image_descriptor_sets inputAttachmentDescriptorSet SCRATCH_COLOR_PLANE_IDX
             VK_DESCRIPTOR_TYPE_INPUT_ATTACHMENT (viewOf (m_scratchColorTexture rt))
             VK_IMAGE_LAYOUT_GENERAL));;
  emit (vkCmdBindDescriptorSets (drawPipelineLayout mode) PER_FLUSH_BINDINGS_SET
          [ perFlushDescriptorSet; nullImageDescriptorSet mode;
            samplerDescriptorSet mode; inputAttachmentDescriptorSet ]
          [0]);;
  mret perFlushDescriptorSet.

(** [m_frameCompletionFences[m_bufferRingIdx] = ref_rcp(desc.frameCompletionFence)] *)
Definition attachFrameCompletionFence (desc : FlushDescriptor) : M unit :=
  if isFinalFlushOfFrame desc
  then
    ringIdx ← gets m_bufferRingIdx;
    fences ← gets m_frameCompletionFences;
    match fenceAt fences ringIdx with
    | None => undefined
    | Some _ =>
        modify (set_frameCompletionFences
                  (<[Z.to_nat ringIdx := frameCompletionFence desc]> fences))
    end
  else mret tt.

(** *** flush *)

Definition flush (desc : FlushDescriptor) : M unit :=
  if decide (interlockMode desc = InterlockMode.depthStencil)
  then mret tt (* TODO: support MSAA. *)
  else
    pass ← prepareDrawPass desc;
    clearAtomicCoverage desc;;
    emit (beginDrawPass desc pass);;
    emit (vkCmdSetViewport (pass_renderArea pass));;
    emit (vkCmdSetScissor (pass_renderArea pass));;
    perFlushDescriptorSet ← bindFlushDescriptorSets desc pass;
    (* Execute the DrawList. *)
    loop ← executeDrawList desc (pass_renderPassVariantIdx pass) perFlushDescriptorSet
             (drawList desc)
             {| descriptorSetPool := pass_pool pass;
                imageTextureUpdateCount := 0;
                needsBarrierBeforeNextDraw := initialNeedsBarrier desc |};
    emit vkCmdEndRenderPass;;
    attachFrameCompletionFence desc;;
    (* the locals go out of scope *)
    emit (releaseFramebuffer (pass_framebuffer pass));;
    onRefCntReachedZero (descriptorSetPool loop).

(** The flushes of one frame: [m_currentFrameIdx] only changes in
    [prepareToMapBuffers]. *)
Fixpoint flushes (descs : list FlushDescriptor) : M unit :=
  match descs with
  | [] => mret tt
  | desc :: rest => flush desc;; flushes rest
  end.

End Engine.

(** ** Observations on traces *)

Definition isDraw (e : Event) : bool :=
  match e with
  | vkCmdDraw _ _ _ _ | vkCmdDrawIndexed _ _ _ _ _ => true
  | _ => false
  end.

Definition isPipelineBarrier (e : Event) : bool :=
  match e with
  | vkCmdPipelineBarrier _ _ _ _ => true
  | _ => false
  end.

(** What a batch records before it binds its pipeline: descriptor sets and
    the objects built on first use. *)
Definition isBatchSetup (e : Event) : bool :=
  match e with
  | vkCreateDescriptorPool _ | vkResetDescriptorPool _ | vkDestroyDescriptorPool _
  | vkAllocateDescriptorSets _ _ _ | update_image_descriptor_sets _ _ _ _ _
  | vkCmdBindDescriptorSets _ _ _ _
  | vkCreateShaderModules _ | vkCreateGraphicsPipelines _ _ => true
  | _ => false
  end.

(** A write of the image texture binding with the view of texture [tex]:
    the call that fills a freshly allocated per-draw descriptor set. *)
Definition isImageTextureWrite (tex : TextureId) (e : Event) : bool :=
  match e with
  | update_image_descriptor_sets _ IMAGE_TEXTURE_IDX _ (viewOf (imageTexture tex')) _ =>
      bool_decide (tex' = tex)
  | _ => false
  end.

(** An allocation from the per-draw layout. *)
Definition isPerDrawAllocation (e : Event) : bool :=
  match e with
  | vkAllocateDescriptorSets _ (perDrawLayout _) _ => true
  | _ => false
  end.

Definition isDeleteResource (e : Event) : bool :=
  match e with
  | deleteResource _ => true
  | _ => false
  end.

Definition count (p : Event -> bool) (es : list Event) : nat :=
  length (filter (fun e => p e = true) es).

(** The image texture binding being written, or a descriptor set being
    allocated for it. *)
Definition isImageTextureBinding (e : Event) : bool :=
  match e with
  | update_image_descriptor_sets _ IMAGE_TEXTURE_IDX _ _ _ => true
  | vkAllocateDescriptorSets _ (perDrawLayout _) _ => true
  | _ => false
  end.

Definition notImageTextureBinding (e : Event) : bool := negb (isImageTextureBinding e).

(** Allocations from the per-draw layout and writes of the image texture
    binding come in pairs: a set is allocated, and the next call writes the
    view of an image texture into that very set.  [pairing] scans a trace
    with the set that awaits its write, if any. *)
Definition pairingStep (awaiting : option VkDescriptorSet) (e : Event)
    : option (option VkDescriptorSet) :=
  match awaiting with
  | None =>
      match e with
      | vkAllocateDescriptorSets _ (perDrawLayout _) set => Some (Some set)
      | _ => if isImageTextureBinding e then None else Some None
      end
  | Some set =>
      match e with
      | update_image_descriptor_sets set' IMAGE_TEXTURE_IDX _ (viewOf (imageTexture _)) _ =>
          if decide (set' = set) then Some None else None
      | _ => None
      end
  end.

Fixpoint pairing (awaiting : option VkDescriptorSet) (es : list Event)
    : option (option VkDescriptorSet) :=
  match es with
  | [] => Some awaiting
  | e :: rest =>
      match pairingStep awaiting e with
      | Some awaiting' => pairing awaiting' rest
      | None => None
      end
  end.

Definition allocationsPaired (es : list Event) : Prop := pairing None es = Some None.

(** Everything [flush] records outside the image texture binding and the
    barrier of the draw loop. *)
Definition isPassEvent (e : Event) : bool :=
  negb (isPipelineBarrier e) && negb (isImageTextureBinding e).

Definition isQuietPassEvent (e : Event) : bool :=
  isPassEvent e && negb (isDraw e).

Definition notDraw (e : Event) : bool := negb (isDraw e).
Definition notPipelineBarrier (e : Event) : bool := negb (isPipelineBarrier e).

Section Observations.

Context `{PlsHeader}.

(** The draw calls of a draw list, batch by batch; a batch without
    elements has none. *)
Definition drawCalls (batches : list DrawBatch) : list Event :=
  omap (fun batch => if elementCount batch =? 0 then None else batchDraw batch) batches.

(** The descriptor set and frame index a texture carries. *)
Definition descriptorOf (s : State) (tex : TextureId) : option (VkDescriptorSet * Z) :=
  (fun t => (m_imageTextureDescriptorSet t, m_descriptorSetFrameIdx t)) <$> textures s !! tex.

(** The texture has been given its descriptor set in the current frame. *)
Definition boundThisFrame (s : State) (tex : TextureId) : Prop :=
  exists set, descriptorOf s tex = Some (set, m_currentFrameIdx s).

(** Over a stretch of one frame, texture [tex] is given a descriptor set
    at most once: the frame index stays; allocations and writes are paired;
    the view of [tex] is written at most once, and then [tex] carries the
    current frame; and when [tex] already carried the current frame, it is
    not written and keeps its set. *)
Definition oncePerFrame (tex : TextureId) : relation State :=
  fun s s' =>
    m_currentFrameIdx s' = m_currentFrameIdx s /\
    exists new,
      trace s' = trace s ++ new /\
      allocationsPaired new /\
      (count (isImageTextureWrite tex) new <= 1)%nat /\
      (count (isImageTextureWrite tex) new = 1%nat -> boundThisFrame s' tex) /\
      (boundThisFrame s tex ->
       count (isImageTextureWrite tex) new = 0%nat /\
       descriptorOf s' tex = descriptorOf s tex).

(** The Vulkan load op that stands for a load action. *)
Definition loadOpFor (loadAction : LoadAction.t) : VkAttachmentLoadOp :=
  match loadAction with
  | LoadAction.preserveRenderTarget => VK_ATTACHMENT_LOAD_OP_LOAD
  | LoadAction.clear => VK_ATTACHMENT_LOAD_OP_CLEAR
  | LoadAction.dontCare => VK_ATTACHMENT_LOAD_OP_DONT_CARE
  end.

End Observations.

(** ** Relations between the state before and the state after

    [respects R m]: however far [m] gets, the state it ends in is related
    by [R] to the state it started in. *)
Definition respects {A} (R : relation State) (m : M A) : Prop :=
  forall s, R s (finalState (m s)).


(** The trace only grows, by events that satisfy [P]. *)
Definition extendsWith (P : Event -> bool) : relation State :=
  fun s s' => exists new, trace s' = trace s ++ new /\ forallb P new = true.

(** A member keeps its value. *)
Definition preserves {A} (f : State -> A) : relation State :=
  fun s s' => f s' = f s.

(** The current frame and the descriptor set each texture carries stay. *)
Definition keepsDescriptors : relation State :=
  fun s s' =>
    m_currentFrameIdx s' = m_currentFrameIdx s /\
    forall tex, descriptorOf s' tex = descriptorOf s tex.

(** The result of a computation that ends normally satisfies [Q]. *)
Definition yields {A} (Q : A -> Prop) (m : M A) : Prop :=
  forall s a s', m s = Ok a s' -> Q a.

(** ** A header instance for the examples

    Small values in the shape of the real header: a ring of three slots,
    the load actions numbered from zero, a shader key that packs features,
    draw type and interlock mode. *)
Definition example_DrawType_key (type : DrawType.t) : Z :=
  match type with
  | DrawType.midpointFanPatches | DrawType.outerCurvePatches => 0
  | DrawType.interiorTriangulation => 1
  | DrawType.imageRect => 2
  | DrawType.imageMesh => 3
  | DrawType.plsAtomicInitialize => 4
  | DrawType.plsAtomicResolve => 5
  | DrawType.stencilClipReset => 6
  end.

#[local] Instance example_header : PlsHeader := {|
  kBufferRingSize := 3;
  LoadAction_int := fun a =>
    match a with
    | LoadAction.clear => 0
    | LoadAction.preserveRenderTarget => 1
    | LoadAction.dontCare => 2
    end;
  ShaderUniqueKey := fun type features mode =>
    Z.lor (Z.shiftl (Z.lor (Z.shiftl (Z.land features 63) 3) (example_DrawType_key type)) 1)
          (match mode with InterlockMode.atomics => 1 | _ => 0 end);
  PatchIndexCount := fun type =>
    match type with DrawType.midpointFanPatches => 144 | _ => 273 end;
  PatchBaseIndex := fun type =>
    match type with DrawType.midpointFanPatches => 0 | _ => 144 end;
  kTessSpanIndices_size := 18;
  kImageRectIndices_size := 36;
  kGradTextureWidth := 512;
  kTessTextureWidth := 2048;
  sizeof_PathData := 32;
  sizeof_ContourData := 16;
  sizeof_PaintData := 8;
  sizeof_PaintAuxData := 64;
  sizeof_FlushUniforms := 256;
  sizeof_ImageDrawUniforms := 256;
  ENABLE_ADVANCED_BLEND := 4;
  expirationFrameIdx := fun lastFrameUsed => lastFrameUsed + 3
|}.

Definition example_texture : PLSTextureVulkanImpl :=
  {| tex_width := 4; tex_height := 2; tex_mipLevels := 2;
     m_imageUploadBuffer := true;
     m_imageTextureDescriptorSet := VK_NULL_HANDLE;
     m_descriptorSetFrameIdx := size_t_max |}.

Definition example_target : PLSRenderTargetVulkan :=
  {| rt_width := 64; rt_height := 32;
     m_framebufferFormat := VK_FORMAT_B8G8R8A8_UNORM;
     has_coverageTexture := false; has_clipTexture := false;
     has_scratchColorTexture := false; has_coverageAtomicTexture := false |}.

(** A context after its first [prepareToMapBuffers]: frame 1, ring slot 0,
    no fence pending; texture 7 (the null image texture is 1) and render
    target 1 exist. *)
Definition example_state : State :=
  {| m_currentFrameIdx := 1;
     m_bufferRingIdx := 0;
     m_frameCompletionFences := [None; None; None];
     m_resourcePurgatory := [];
     m_descriptorSetPoolPool := [];
     m_drawPipelineLayouts := ∅;
     m_drawShaders := ∅;
     m_drawPipelines := ∅;
     m_nullImageTexture := 1%positive;
     fillModeNonSolid := true;
     textures := <[7%positive := example_texture]>
                 (<[1%positive := setUploadBuffer false example_texture]> ∅);
     renderTargets := <[1%positive := example_target]> ∅;
     nextHandle := 100;
     trace := [] |}.

Definition example_batch (type : DrawType.t) (elements : Z) (tex : option TextureId)
    (barrier : bool) : DrawBatch :=
  {| drawType := type; elementCount := elements; baseElement := 0;
     batch_imageTexture := tex; imageDrawDataOffset := 0;
     shaderFeatures := 0; needsBarrier := barrier;
     vertexBuffer := Some 11%positive; uvBuffer := Some 12%positive;
     indexBuffer := Some 13%positive |}.

Definition example_desc (mode : InterlockMode.t) (load : LoadAction.t)
    (batches : list DrawBatch) : FlushDescriptor :=
  {| renderTarget := 1%positive; interlockMode := mode; colorLoadAction := load;
     clearColor := 0; coverageClearValue := 0; drawList := batches;
     firstPath := 0; firstContour := 0; firstPaint := 0; firstPaintAux := 0;
     firstTessVertexSpan := 0; firstComplexGradSpan := 0;
     tessVertexSpanCount := 4; tessDataHeight := 1;
     complexGradSpanCount := 0; complexGradRowsTop := 0; complexGradRowsHeight := 0;
     simpleGradDataOffsetInBytes := 0; simpleGradTexelsWidth := 0;
     simpleGradTexelsHeight := 0; flushUniformDataOffsetInBytes := 0;
     combinedShaderFeatures := 4; wireframe := false;
     isFinalFlushOfFrame := true; frameCompletionFence := Some 5%positive |}.

(** Five batches: the first and the third have no elements; the second
    and fourth draw a mesh with texture 7, the second asks for a barrier;
    the last resolves the atomic coverage. *)
Definition example_batches : list DrawBatch :=
  [ example_batch DrawType.midpointFanPatches 0 None true;
    example_batch DrawType.imageMesh 6 (Some 7%positive) true;
    example_batch DrawType.interiorTriangulation 0 None false;
    example_batch DrawType.imageMesh 6 (Some 7%positive) false;
    example_batch DrawType.plsAtomicResolve 1 None false ].

Definition example_flush : FlushDescriptor :=
  example_desc InterlockMode.atomics LoadAction.clear example_batches.

(** * Theorems *)

(** ** Machine integers and bytes *)

Lemma u64_small (z : Z) : 0 <= z <= size_t_max -> u64 z = z.
Proof.
  unfold u64, wrap, size_t_max. intros Hz. apply Z.mod_small. lia.
Qed.

Lemma of_bytes_le_bytes_le (n : nat) (x : Z) :
  PLSDraw.of_bytes_le (PLSDraw.bytes_le n x) = x mod 256 ^ Z.of_nat n.
Proof.
  revert x. induction n as [|n IH]; intros x.
  - simpl. symmetry. apply Z.mod_1_r.
  - cbn [PLSDraw.bytes_le PLSDraw.of_bytes_le]. rewrite IH.
    rewrite Nat2Z.inj_succ, Z.pow_succ_r by lia.
    rewrite Z.rem_mul_r by lia. reflexivity.
Qed.

Lemma load_store_size_t (x : Z) (rest : list Z) :
  PLSDraw.load_size_t (PLSDraw.store_size_t x ++ rest) = u64 x.
Proof.
  unfold PLSDraw.load_size_t, PLSDraw.store_size_t.
  change (take 8 (PLSDraw.bytes_le 8 x ++ rest)) with (PLSDraw.bytes_le 8 x).
  rewrite of_bytes_le_bytes_le. reflexivity.
Qed.

Lemma load_store_size_t_last (x : Z) :
  PLSDraw.load_size_t (PLSDraw.store_size_t x) = u64 x.
Proof.
  rewrite <- (app_nil_r (PLSDraw.store_size_t x)). apply load_store_size_t.
Qed.

Lemma drop_store_size_t (x : Z) (rest : list Z) :
  drop 8 (PLSDraw.store_size_t x ++ rest) = rest.
Proof. reflexivity. Qed.

(** ** ResourceCounters *)

Lemma toVec_lanes (c : PLSDraw.ResourceCounters) :
  PLSDraw.toVec c =
  [ u64 (PLSDraw.midpointFanTessVertexCount c);
    u64 (PLSDraw.outerCubicTessVertexCount c);
    u64 (PLSDraw.pathCount c);
    u64 (PLSDraw.contourCount c);
    u64 (PLSDraw.tessellatedSegmentCount c);
    u64 (PLSDraw.maxTriangleVertexCount c);
    u64 (PLSDraw.imageDrawCount c);
    u64 (PLSDraw.complexGradientSpanCount c) ].
Proof.
  unfold PLSDraw.toVec, PLSDraw.ResourceCounters_bytes.
  cbn [PLSDraw.VecType_of_bytes].
  repeat rewrite drop_store_size_t.
  repeat rewrite load_store_size_t.
  rewrite load_store_size_t_last. reflexivity.
Qed.

Lemma ofVec_lanes (x1 x2 x3 x4 x5 x6 x7 x8 : Z) :
  PLSDraw.ofVec [x1; x2; x3; x4; x5; x6; x7; x8] =
  {| PLSDraw.midpointFanTessVertexCount := u64 x1;
     PLSDraw.outerCubicTessVertexCount := u64 x2;
     PLSDraw.pathCount := u64 x3;
     PLSDraw.contourCount := u64 x4;
     PLSDraw.tessellatedSegmentCount := u64 x5;
     PLSDraw.maxTriangleVertexCount := u64 x6;
     PLSDraw.imageDrawCount := u64 x7;
     PLSDraw.complexGradientSpanCount := u64 x8 |}.
Proof.
  unfold PLSDraw.ofVec, PLSDraw.ResourceCounters_of_bytes, PLSDraw.load_size_t.
  f_equal;
    lazymatch goal with
    | |- PLSDraw.of_bytes_le ?t = u64 ?x => change t with (PLSDraw.bytes_le 8 x)
    end;
    apply of_bytes_le_bytes_le.
Qed.

(** C9. Building a [ResourceCounters] from [c.toVec()] gives back [c]:
    each of the eight counters survives the copy into the SIMD vector and
    back. *)
Theorem ResourceCounters_toVec_round_trip (c : PLSDraw.ResourceCounters) :
  PLSDraw.ResourceCounters_wf c ->
  PLSDraw.ofVec (PLSDraw.toVec c) = c /\
  PLSDraw.midpointFanTessVertexCount (PLSDraw.ofVec (PLSDraw.toVec c))
    = PLSDraw.midpointFanTessVertexCount c /\
  PLSDraw.outerCubicTessVertexCount (PLSDraw.ofVec (PLSDraw.toVec c))
    = PLSDraw.outerCubicTessVertexCount c /\
  PLSDraw.pathCount (PLSDraw.ofVec (PLSDraw.toVec c)) = PLSDraw.pathCount c /\
  PLSDraw.contourCount (PLSDraw.ofVec (PLSDraw.toVec c)) = PLSDraw.contourCount c /\
  PLSDraw.tessellatedSegmentCount (PLSDraw.ofVec (PLSDraw.toVec c))
    = PLSDraw.tessellatedSegmentCount c /\
  PLSDraw.maxTriangleVertexCount (PLSDraw.ofVec (PLSDraw.toVec c))
    = PLSDraw.maxTriangleVertexCount c /\
  PLSDraw.imageDrawCount (PLSDraw.ofVec (PLSDraw.toVec c)) = PLSDraw.imageDrawCount c /\
  PLSDraw.complexGradientSpanCount (PLSDraw.ofVec (PLSDraw.toVec c))
    = PLSDraw.complexGradientSpanCount c.
Proof.
  intros (H1 & H2 & H3 & H4 & H5 & H6 & H7 & H8).
  assert (Heq : PLSDraw.ofVec (PLSDraw.toVec c) = c).
  { rewrite toVec_lanes, ofVec_lanes.
    unfold is_size_t in *.
    rewrite !u64_small by (rewrite ?u64_small by assumption; assumption).
    destruct c; reflexivity. }
  rewrite Heq. repeat split; reflexivity.
Qed.

Lemma ResourceCounters_toVec_round_trip_witness :
  let c := {| PLSDraw.midpointFanTessVertexCount := 8;
              PLSDraw.outerCubicTessVertexCount := 17;
              PLSDraw.pathCount := 1;
              PLSDraw.contourCount := 2;
              PLSDraw.tessellatedSegmentCount := 300;
              PLSDraw.maxTriangleVertexCount := 2 ^ 40;
              PLSDraw.imageDrawCount := 0;
              PLSDraw.complexGradientSpanCount := size_t_max |} in
  PLSDraw.ResourceCounters_wf c /\ PLSDraw.ofVec (PLSDraw.toVec c) = c.
Proof.
  intros c.
  assert (Hwf : PLSDraw.ResourceCounters_wf c).
  { subst c. unfold PLSDraw.ResourceCounters_wf, is_size_t, size_t_max.
    cbn [PLSDraw.midpointFanTessVertexCount PLSDraw.outerCubicTessVertexCount
         PLSDraw.pathCount PLSDraw.contourCount PLSDraw.tessellatedSegmentCount
         PLSDraw.maxTriangleVertexCount PLSDraw.imageDrawCount
         PLSDraw.complexGradientSpanCount].
    lia. }
  split; [exact Hwf|].
  exact (proj1 (ResourceCounters_toVec_round_trip c Hwf)).
Defined.

(** ** InteriorTriangulationDraw constants *)

(** C7. With [kPatchSegmentCountExcludingJoin = kOuterCurvePatchSegmentSpan - 1]
    and [kMaxCurveSubdivisions] the ceiling of
    [kMaxParametricSegments / kPatchSegmentCountExcludingJoin], the product
    [kMaxCurveSubdivisions * kPatchSegmentCountExcludingJoin] reaches
    [kMaxParametricSegments]; no step of the [size_t] arithmetic wraps. *)
Theorem kMaxCurveSubdivisions_covers_kMaxParametricSegments
    (kMaxParametricSegments kOuterCurvePatchSegmentSpan : Z) :
  is_size_t kMaxParametricSegments ->
  is_size_t kOuterCurvePatchSegmentSpan ->
  InteriorTriangulationDraw.kJoinSegmentCount < kOuterCurvePatchSegmentSpan ->
  kMaxParametricSegments + kOuterCurvePatchSegmentSpan - 2 <= size_t_max ->
  let k := InteriorTriangulationDraw.kPatchSegmentCountExcludingJoin
             kOuterCurvePatchSegmentSpan in
  let n := InteriorTriangulationDraw.kMaxCurveSubdivisions
             kMaxParametricSegments kOuterCurvePatchSegmentSpan in
  k = kOuterCurvePatchSegmentSpan - 1 /\
  n = (kMaxParametricSegments + k - 1) / k /\
  size_t_mul n k = n * k /\
  size_t_mul n k >= kMaxParametricSegments /\
  n * k < kMaxParametricSegments + k.
Proof.
  intros HM Hspan Hjoin Hsum k n.
  unfold is_size_t, InteriorTriangulationDraw.kJoinSegmentCount in *.
  assert (Hk : k = kOuterCurvePatchSegmentSpan - 1).
  { subst k. unfold InteriorTriangulationDraw.kPatchSegmentCountExcludingJoin,
      size_t_sub, InteriorTriangulationDraw.kJoinSegmentCount.
    apply u64_small. lia. }
  assert (Hn : n = (kMaxParametricSegments + k - 1) / k).
  { subst n. unfold InteriorTriangulationDraw.kMaxCurveSubdivisions.
    fold k. unfold size_t_div, size_t_sub, size_t_add, u64, wrap.
    rewrite Zminus_mod_idemp_l.
    rewrite Z.mod_small by (unfold size_t_max in *; lia). reflexivity. }
  clearbody k n.
  assert (Hkpos : 0 < k) by lia.
  pose proof (Z.div_mod (kMaxParametricSegments + k - 1) k ltac:(lia)) as Hdm.
  pose proof (Z.mod_pos_bound (kMaxParametricSegments + k - 1) k Hkpos) as Hmod.
  rewrite <- Hn in Hdm.
  assert (Hlo : kMaxParametricSegments <= n * k) by nia.
  assert (Hhi : n * k < kMaxParametricSegments + k) by nia.
  assert (Hmul : size_t_mul n k = n * k).
  { unfold size_t_mul. apply u64_small. unfold size_t_max in *. lia. }
  repeat split; try assumption. rewrite Hmul. lia.
Qed.

(** Whatever the floating-point part of [FindSubdivisionCount] yields, the
    clamp returns a count between 1 and [kMaxCurveSubdivisions]. *)
Lemma FindSubdivisionCount_clamp_range (kMaxCurveSubdivisions numSubdivisions : Z) :
  1 <= kMaxCurveSubdivisions ->
  1 <= InteriorTriangulationDraw.FindSubdivisionCount_clamp
         kMaxCurveSubdivisions numSubdivisions <= kMaxCurveSubdivisions.
Proof.
  intros Hmax.
  unfold InteriorTriangulationDraw.FindSubdivisionCount_clamp,
    InteriorTriangulationDraw.clamp.
  destruct (numSubdivisions <? 1) eqn:Hlo; [lia|].
  destruct (kMaxCurveSubdivisions <? numSubdivisions) eqn:Hhi; lia.
Qed.

Lemma kMaxCurveSubdivisions_covers_witness :
  InteriorTriangulationDraw.kMaxCurveSubdivisions 1023 17 = 64 /\
  size_t_mul (InteriorTriangulationDraw.kMaxCurveSubdivisions 1023 17)
             (InteriorTriangulationDraw.kPatchSegmentCountExcludingJoin 17) >= 1023.
Proof.
  split; [reflexivity|].
  apply (kMaxCurveSubdivisions_covers_kMaxParametricSegments 1023 17);
    unfold is_size_t, size_t_max, InteriorTriangulationDraw.kJoinSegmentCount; lia.
Defined.

(** ** The render-pass variant key *)

Section RenderPassVariants.

Context `{PlsHeader}.

(** The enumerators of [pls::LoadAction] are the three values the assertion
    in [RenderPassVariantIdx] allows, and no two of them are equal (or the
    [switch] in [LoadOpFromRenderPassVariant] would not compile). *)
Hypothesis LoadAction_int_range : forall a, 0 <= LoadAction_int a < 3.
Hypothesis LoadAction_int_inj :
  forall a b, LoadAction_int a = LoadAction_int b -> a = b.

Lemma LoadAction_int_cases :
  exists p c d,
    LoadAction_int LoadAction.preserveRenderTarget = p /\
    LoadAction_int LoadAction.clear = c /\
    LoadAction_int LoadAction.dontCare = d /\
    (p = 0 \/ p = 1 \/ p = 2) /\ (c = 0 \/ c = 1 \/ c = 2) /\ (d = 0 \/ d = 1 \/ d = 2) /\
    p <> c /\ p <> d /\ c <> d.
Proof.
  exists (LoadAction_int LoadAction.preserveRenderTarget),
         (LoadAction_int LoadAction.clear), (LoadAction_int LoadAction.dontCare).
  pose proof (LoadAction_int_range LoadAction.preserveRenderTarget).
  pose proof (LoadAction_int_range LoadAction.clear).
  pose proof (LoadAction_int_range LoadAction.dontCare).
  repeat split; try lia; intros Heq; apply LoadAction_int_inj in Heq; discriminate.
Qed.

Lemma RenderPassVariantIdx_round_trip (format : VkFormat) (loadAction : LoadAction.t) :
  format = VK_FORMAT_R8G8B8A8_UNORM \/ format = VK_FORMAT_B8G8R8A8_UNORM ->
  0 <= RenderPassVariantIdx format loadAction < kRenderPassVariantCount /\
  FormatFromRenderPassVariant (RenderPassVariantIdx format loadAction) = format /\
  LoadOpFromRenderPassVariant (RenderPassVariantIdx format loadAction)
    = Some (loadOpFor loadAction).
Proof.
  intros Hformat.
  destruct LoadAction_int_cases as (p & c & d & Hp & Hc & Hd & Hpv & Hcv & Hdv & Hpc & Hpd & Hcd).
  unfold RenderPassVariantIdx, FormatFromRenderPassVariant, LoadOpFromRenderPassVariant,
    kRenderPassVariantCount.
  destruct loadAction; rewrite ?Hp, ?Hc, ?Hd;
    destruct Hformat as [-> | ->];
    destruct Hpv as [-> | [-> | ->]]; destruct Hcv as [-> | [-> | ->]];
    destruct Hdv as [-> | [-> | ->]]; try congruence;
    (split; [split; vm_compute; first [discriminate | reflexivity]
            | split; vm_compute; reflexivity]).
Qed.

(** The load op of the variant a cleared flush selects is [CLEAR],
    whatever the format of the target. *)
Lemma LoadOpFromRenderPassVariant_clear (format : VkFormat) :
  LoadOpFromRenderPassVariant (RenderPassVariantIdx format LoadAction.clear)
    = Some VK_ATTACHMENT_LOAD_OP_CLEAR.
Proof.
  destruct LoadAction_int_cases as (p & c & d & Hp & Hc & Hd & Hpv & Hcv & Hdv & Hpc & Hpd & Hcd).
  unfold RenderPassVariantIdx, LoadOpFromRenderPassVariant.
  rewrite ?Hp, ?Hc, ?Hd.
  destruct (decide (format = VK_FORMAT_B8G8R8A8_UNORM));
    destruct Hpv as [-> | [-> | ->]]; destruct Hcv as [-> | [-> | ->]];
    destruct Hdv as [-> | [-> | ->]]; try congruence; vm_compute; reflexivity.
Qed.

(** C8. [RenderPassVariantIdx] is a bijection between the six (format,
    load action) pairs and the indices 0..5: the index is in range,
    [FormatFromRenderPassVariant] and [LoadOpFromRenderPassVariant] recover
    the format and the load op of the load action, distinct pairs have
    distinct indices, and every index is the index of a pair. *)
Theorem RenderPassVariantIdx_bijection :
  (forall format loadAction,
     format = VK_FORMAT_R8G8B8A8_UNORM \/ format = VK_FORMAT_B8G8R8A8_UNORM ->
     0 <= RenderPassVariantIdx format loadAction < kRenderPassVariantCount /\
     FormatFromRenderPassVariant (RenderPassVariantIdx format loadAction) = format /\
     LoadOpFromRenderPassVariant (RenderPassVariantIdx format loadAction)
       = Some (loadOpFor loadAction)) /\
  (forall format loadAction format' loadAction',
     format = VK_FORMAT_R8G8B8A8_UNORM \/ format = VK_FORMAT_B8G8R8A8_UNORM ->
     format' = VK_FORMAT_R8G8B8A8_UNORM \/ format' = VK_FORMAT_B8G8R8A8_UNORM ->
     RenderPassVariantIdx format loadAction = RenderPassVariantIdx format' loadAction' ->
     format = format' /\ loadAction = loadAction') /\
  (forall idx, 0 <= idx < kRenderPassVariantCount ->
     exists format loadAction,
       (format = VK_FORMAT_R8G8B8A8_UNORM \/ format = VK_FORMAT_B8G8R8A8_UNORM) /\
       RenderPassVariantIdx format loadAction = idx).
Proof.
  split; [exact RenderPassVariantIdx_round_trip|]. split.
  - intros format loadAction format' loadAction' Hf Hf' Heq.
    destruct (RenderPassVariantIdx_round_trip format loadAction Hf) as (_ & Hfmt & Hop).
    destruct (RenderPassVariantIdx_round_trip format' loadAction' Hf') as (_ & Hfmt' & Hop').
    rewrite Heq in Hfmt, Hop. split; [congruence|].
    rewrite Hop' in Hop. destruct loadAction, loadAction'; simpl in Hop; congruence.
  - intros idx Hidx. unfold kRenderPassVariantCount in Hidx.
    destruct LoadAction_int_cases
      as (p & c & d & Hp & Hc & Hd & Hpv & Hcv & Hdv & Hpc & Hpd & Hcd).
    assert (Hsurj : forall v, v = 0 \/ v = 1 \/ v = 2 ->
                      exists a, LoadAction_int a = v).
    { intros v Hv.
      destruct (decide (v = p)) as [-> | Hnp];
        [exists LoadAction.preserveRenderTarget; assumption|].
      destruct (decide (v = c)) as [-> | Hnc]; [exists LoadAction.clear; assumption|].
      exists LoadAction.dontCare. rewrite Hd. lia. }
    assert (Hidx' : idx = 0 \/ idx = 1 \/ idx = 2 \/ idx = 3 \/ idx = 4 \/ idx = 5) by lia.
    unfold RenderPassVariantIdx.
    destruct Hidx' as [-> | [-> | [-> | [-> | [-> | ->]]]]].
    + destruct (Hsurj 0) as [a Ha]; [lia|].
      exists VK_FORMAT_R8G8B8A8_UNORM, a. rewrite Ha. split; [left|]; reflexivity.
    + destruct (Hsurj 0) as [a Ha]; [lia|].
      exists VK_FORMAT_B8G8R8A8_UNORM, a. rewrite Ha. split; [right|]; reflexivity.
    + destruct (Hsurj 1) as [a Ha]; [lia|].
      exists VK_FORMAT_R8G8B8A8_UNORM, a. rewrite Ha. split; [left|]; reflexivity.
    + destruct (Hsurj 1) as [a Ha]; [lia|].
      exists VK_FORMAT_B8G8R8A8_UNORM, a. rewrite Ha. split; [right|]; reflexivity.
    + destruct (Hsurj 2) as [a Ha]; [lia|].
      exists VK_FORMAT_R8G8B8A8_UNORM, a. rewrite Ha. split; [left|]; reflexivity.
    + destruct (Hsurj 2) as [a Ha]; [lia|].
      exists VK_FORMAT_B8G8R8A8_UNORM, a. rewrite Ha. split; [right|]; reflexivity.
Qed.

End RenderPassVariants.

Lemma example_LoadAction_int_range :
  forall a, 0 <= @LoadAction_int example_header a < 3.
Proof. intros []; simpl; lia. Qed.

Lemma example_LoadAction_int_inj :
  forall a b, @LoadAction_int example_header a = @LoadAction_int example_header b -> a = b.
Proof. intros [] []; simpl; intros Heq; first [reflexivity | discriminate Heq]. Qed.

Lemma RenderPassVariantIdx_bijection_witness :
  @RenderPassVariantIdx example_header VK_FORMAT_B8G8R8A8_UNORM LoadAction.dontCare = 5 /\
  @LoadOpFromRenderPassVariant example_header 5 = Some VK_ATTACHMENT_LOAD_OP_DONT_CARE /\
  FormatFromRenderPassVariant 5 = VK_FORMAT_B8G8R8A8_UNORM.
Proof.
  pose proof (proj1 (@RenderPassVariantIdx_bijection example_header
                       example_LoadAction_int_range example_LoadAction_int_inj)
                VK_FORMAT_B8G8R8A8_UNORM LoadAction.dontCare (or_intror eq_refl))
    as (_ & Hformat & Hop).
  split; [reflexivity|]. split; [exact Hop | exact Hformat].
Defined.

(** ** Computations: equations and inversion *)

Lemma bind_Ok {A B} (m : M A) (f : A -> M B) (s s' : State) (b : B) :
  (m ≫= f) s = Ok b s' -> exists a s1, m s = Ok a s1 /\ f a s1 = Ok b s'.
Proof.
  unfold mbind, M_bind. destruct (m s) as [a s1|s1]; [eauto | discriminate].
Qed.

Lemma bind_eq {A B} (m : M A) (f : A -> M B) (s s1 : State) (a : A) :
  m s = Ok a s1 -> (m ≫= f) s = f a s1.
Proof. unfold mbind, M_bind. intros ->. reflexivity. Qed.

Lemma bind_assoc {A B C} (m : M A) (f : A -> M B) (g : B -> M C) (s : State) :
  ((m ≫= f) ≫= g) s = (m ≫= fun a => f a ≫= g) s.
Proof. unfold mbind, M_bind. destruct (m s); reflexivity. Qed.

Lemma emits_eq (es : list Event) (s : State) :
  emits es s = Ok tt (set_trace (trace s ++ es) s).
Proof.
  revert s. induction es as [|e es IH]; intros s.
  - cbn. rewrite app_nil_r. destruct s; reflexivity.
  - cbn [emits]. unfold mbind, M_bind, emit, modify. rewrite IH. cbn.
    rewrite <- app_assoc. reflexivity.
Qed.

(** Inverting a normal end, one bind at a time. *)
Tactic Notation "inv_bind" hyp(H) "as" ident(a) ident(s1) ident(Hm) :=
  apply bind_Ok in H; destruct H as (a & s1 & Hm & H).

(** ** Relations every step of a computation preserves *)

Section Respects.

Context (R : relation State) `{!PreOrder R}.

Lemma respects_ret {A} (a : A) : respects R (mret a : M A).
Proof. intros s. cbn. reflexivity. Qed.

Lemma respects_gets {A} (f : State -> A) : respects R (gets f).
Proof. intros s. cbn. reflexivity. Qed.

Lemma respects_undefined {A} : respects R (undefined : M A).
Proof. intros s. cbn. reflexivity. Qed.

Lemma respects_bind {A B} (m : M A) (f : A -> M B) :
  respects R m -> (forall a, respects R (f a)) -> respects R (m ≫= f).
Proof.
  intros Hm Hf s. unfold mbind, M_bind. specialize (Hm s).
  destruct (m s) as [a s1|s1]; cbn in Hm |- *; [|exact Hm].
  etransitivity; [exact Hm | apply Hf].
Qed.

Lemma respects_modify (f : State -> State) :
  (forall s, R s (f s)) -> respects R (modify f).
Proof. intros Hf s. apply Hf. Qed.

Lemma respects_Ok {A} (m : M A) (s s' : State) (a : A) :
  respects R m -> m s = Ok a s' -> R s s'.
Proof. intros Hm Heq. specialize (Hm s). rewrite Heq in Hm. exact Hm. Qed.

End Respects.

#[global] Instance extendsWith_preorder (P : Event -> bool) : PreOrder (extendsWith P).
Proof.
  split.
  - intros s. exists []. rewrite app_nil_r. split; reflexivity.
  - intros s1 s2 s3 (n1 & H1 & F1) (n2 & H2 & F2). exists (n1 ++ n2).
    rewrite H2, H1, <- app_assoc. split; [reflexivity|].
    rewrite forallb_app, F1, F2. reflexivity.
Qed.

Lemma extendsWith_emit (P : Event -> bool) (e : Event) :
  P e = true -> respects (extendsWith P) (emit e).
Proof.
  intros He s. exists [e]. cbn. rewrite He. split; reflexivity.
Qed.

Lemma extendsWith_emits (P : Event -> bool) (es : list Event) :
  forallb P es = true -> respects (extendsWith P) (emits es).
Proof.
  intros Hes s. rewrite emits_eq. exists es. split; [reflexivity | exact Hes].
Qed.

Lemma extendsWith_same (P : Event -> bool) (s s' : State) :
  trace s' = trace s -> extendsWith P s s'.
Proof. intros Heq. exists []. rewrite app_nil_r. split; [exact Heq | reflexivity]. Qed.

Lemma extendsWith_weaken (P Q : Event -> bool) (s s' : State) :
  (forall e, P e = true -> Q e = true) -> extendsWith P s s' -> extendsWith Q s s'.
Proof.
  intros HPQ (new & Hnew & Hall). exists new. split; [exact Hnew|].
  rewrite forallb_forall in *. auto.
Qed.

#[global] Instance preserves_preorder {A} (f : State -> A) : PreOrder (preserves f).
Proof.
  split.
  - intros s. reflexivity.
  - intros s1 s2 s3 H1 H2. unfold preserves in *. congruence.
Qed.

Lemma preserves_emits {A} (f : State -> A) (es : list Event) :
  (forall v s, f (set_trace v s) = f s) -> respects (preserves f) (emits es).
Proof. intros Hf s. rewrite emits_eq. apply Hf. Qed.

#[global] Instance keepsDescriptors_preorder : PreOrder keepsDescriptors.
Proof.
  split.
  - intros s. split; reflexivity.
  - intros s1 s2 s3 [F1 D1] [F2 D2]. split; [congruence|].
    intros tex. rewrite D2. apply D1.
Qed.

Lemma keepsDescriptors_same (s s' : State) :
  m_currentFrameIdx s' = m_currentFrameIdx s -> textures s' = textures s ->
  keepsDescriptors s s'.
Proof.
  intros Hframe Htex. split; [exact Hframe|].
  intros tex. unfold descriptorOf. rewrite Htex. reflexivity.
Qed.

Lemma keepsDescriptors_emits (es : list Event) : respects keepsDescriptors (emits es).
Proof. intros s. rewrite emits_eq. apply keepsDescriptors_same; reflexivity. Qed.

Lemma yields_ret {A} (Q : A -> Prop) (a : A) : Q a -> yields Q (mret a : M A).
Proof. intros HQ s a' s' Heq. injection Heq as <- _. exact HQ. Qed.

Lemma yields_undefined {A} (Q : A -> Prop) : yields Q (undefined : M A).
Proof. intros s a s' Heq. discriminate Heq. Qed.

Lemma yields_bind {A B} (Q1 : A -> Prop) (Q : B -> Prop) (m : M A) (f : A -> M B) :
  yields Q1 m -> (forall a, Q1 a -> yields Q (f a)) -> yields Q (m ≫= f).
Proof.
  intros Hm Hf s b s' Heq. apply bind_Ok in Heq as (a & s1 & Hma & Hfa).
  eapply Hf; [eapply Hm; exact Hma | exact Hfa].
Qed.

Lemma yields_bind_any {A B} (Q : B -> Prop) (m : M A) (f : A -> M B) :
  (forall a, yields Q (f a)) -> yields Q (m ≫= f).
Proof.
  intros Hf. apply (yields_bind (fun _ => True)); [intros ? ? ? ?; exact I | auto].
Qed.

(** The definitions of the engine that are neither recursive nor
    primitive: unfolded on sight when a computation is taken apart. *)
Create HintDb engine discriminated.

#[global] Hint Unfold renderPassAt freshHandle newDescriptorSetPool allocateDescriptorSet
  freeDescriptorSets onRefCntReachedZero makeDescriptorSetPool texture updateTexture
  renderTargetAt PLSRenderTargetVulkan_synchronize DrawShader_new
  DrawPipeline_new makeRoomForImageTextureUpdate updateImageTextureDescriptorSet
  bindImageDescriptorSets bindImageTexture bindDrawPipeline issueDraw
  renderComplexGradients
  copySimpleGradients tessellate ensureDrawPipelineLayout prepareDrawPass
  clearAtomicCoverage bindFlushDescriptorSets attachFrameCompletionFence when : engine.

(** One structural step on a goal [respects R m]. *)
Ltac respects_step :=
  lazymatch goal with
  | |- respects _ (mret _) => apply respects_ret; typeclasses eauto
  | |- respects _ (mbind _ _) => apply respects_bind; [typeclasses eauto | | intros ?]
  | |- respects _ (gets _) => apply respects_gets; typeclasses eauto
  | |- respects _ undefined => apply respects_undefined; typeclasses eauto
  | |- respects _ (if ?c then _ else _) => destruct c
  | |- respects _ (match ?x with _ => _ end) => destruct x
  end.

(** The leaves for [extendsWith P], [P] a concrete predicate. *)
Ltac extends_leaf :=
  lazymatch goal with
  | |- respects (extendsWith _) (emit _) => apply extendsWith_emit; reflexivity
  | |- respects (extendsWith _) (emits _) => apply extendsWith_emits; reflexivity
  | |- respects (extendsWith _) (modify _) =>
      apply respects_modify; intros ?; apply extendsWith_same; reflexivity
  end.

(** A lemma about a part, posed in the context, closes the goal for that
    part. *)
Ltac respects_known :=
  match goal with
  | Hpart : _ |- respects _ _ => apply Hpart
  end.

Ltac extends_auto :=
  repeat first [ respects_known | respects_step | extends_leaf
               | progress autounfold with engine ].

(** The leaves for [keepsDescriptors]. *)
Ltac keeps_leaf :=
  lazymatch goal with
  | |- respects keepsDescriptors (emit _) =>
      apply respects_modify; intros ?; apply keepsDescriptors_same; reflexivity
  | |- respects keepsDescriptors (emits _) => apply keepsDescriptors_emits
  | |- respects keepsDescriptors (modify _) =>
      apply respects_modify; intros ?; apply keepsDescriptors_same; reflexivity
  end.

(** The leaves for [preserves f], [f] a member no step writes. *)
Ltac preserves_leaf :=
  lazymatch goal with
  | |- respects (preserves _) (emit _) => apply respects_modify; intros ?; reflexivity
  | |- respects (preserves _) (emits _) => apply preserves_emits; reflexivity
  | |- respects (preserves _) (modify _) => apply respects_modify; intros ?; reflexivity
  end.

Ltac preserves_auto :=
  repeat first [ respects_known | respects_step | preserves_leaf
               | progress autounfold with engine ].

Ltac keeps_auto :=
  repeat first [ respects_known | respects_step | keeps_leaf
               | progress autounfold with engine ].

Section EngineTheorems.

Context `{PlsHeader}.

(** ** flush in depthStencil mode *)

(** C2. When the interlock mode is [depthStencil], [flush] returns at
    once: the state after is the state before, so nothing was recorded in
    the trace, no descriptor pool was made or taken from the free list, and
    no member of the context, texture or render target changed. *)
Theorem flush_depthStencil_is_no_op (desc : FlushDescriptor) (s : State) :
  interlockMode desc = InterlockMode.depthStencil ->
  flush desc s = Ok tt s /\
  trace (finalState (flush desc s)) = trace s /\
  nextHandle (finalState (flush desc s)) = nextHandle s /\
  m_descriptorSetPoolPool (finalState (flush desc s)) = m_descriptorSetPoolPool s.
Proof.
  intros Hmode. unfold flush. rewrite Hmode.
  destruct (decide (InterlockMode.depthStencil = InterlockMode.depthStencil));
    [|congruence].
  repeat split.
Qed.

(** ** prepareToMapBuffers *)

Lemma purgeExpired_deletes (frame : Z) (purgatory : list (Z * Z)) :
  forallb isDeleteResource (fst (purgeExpired frame purgatory)) = true.
Proof.
  induction purgatory as [|[resource expiration] rest IH]; [reflexivity|].
  cbn [purgeExpired]. destruct (expiration <=? frame); [|reflexivity].
  destruct (purgeExpired frame rest) as [deleted kept]. exact IH.
Qed.

Lemma fenceAt_in_range (fences : list (option Fence)) (idx : Z) :
  0 <= idx < Z.of_nat (length fences) -> is_Some (fenceAt fences idx).
Proof.
  intros Hidx. unfold fenceAt.
  destruct (idx <? 0) eqn:Hneg; [lia|].
  apply lookup_lt_is_Some. lia.
Qed.

Lemma fenceAt_insert (fences : list (option Fence)) (idx : Z) (v : option Fence) :
  is_Some (fenceAt fences idx) ->
  fenceAt (<[Z.to_nat idx := v]> fences) idx = Some v.
Proof.
  unfold fenceAt. destruct (idx <? 0); intros [x Hx]; [discriminate|].
  apply list_lookup_insert_eq. eapply lookup_lt_Some. exact Hx.
Qed.


End EngineTheorems.

(** ** What each part of flush records *)

Section Parts.

Context `{PlsHeader}.

Lemma generateMipmaps_pass (fuel : nat) (tex : TextureId) (level : Z) (size : Z * Z) :
  forallb isQuietPassEvent (generateMipmaps fuel tex level size) = true.
Proof.
  revert level size. induction fuel as [|fuel IH]; intros level size; [reflexivity|].
  cbn [generateMipmaps forallb]. rewrite IH. reflexivity.
Qed.

Lemma synchronizeCommands_pass (tex : TextureId) (t : PLSTextureVulkanImpl) :
  forallb isQuietPassEvent (synchronizeCommands tex t) = true.
Proof.
  unfold synchronizeCommands. rewrite !forallb_app.
  destruct (1 <? tex_mipLevels t); rewrite ?forallb_app, ?generateMipmaps_pass;
    reflexivity.
Qed.

Lemma quiet_is_pass (e : Event) : isQuietPassEvent e = true -> isPassEvent e = true.
Proof. unfold isQuietPassEvent. intros Hq. apply andb_prop in Hq. tauto. Qed.

Lemma quiet_is_notDraw (e : Event) : isQuietPassEvent e = true -> notDraw e = true.
Proof. unfold isQuietPassEvent, notDraw. intros Hq. apply andb_prop in Hq. tauto. Qed.

Lemma pass_is_notPipelineBarrier (e : Event) :
  isPassEvent e = true -> notPipelineBarrier e = true.
Proof. unfold isPassEvent, notPipelineBarrier. intros Hq. apply andb_prop in Hq. tauto. Qed.

Lemma setup_is_notDraw (e : Event) : isBatchSetup e = true -> notDraw e = true.
Proof. destruct e; cbn; congruence. Qed.

Lemma setup_is_notPipelineBarrier (e : Event) :
  isBatchSetup e = true -> notPipelineBarrier e = true.
Proof. destruct e; cbn; congruence. Qed.

Lemma forallb_weaken (P Q : Event -> bool) (es : list Event) :
  (forall e, P e = true -> Q e = true) -> forallb P es = true -> forallb Q es = true.
Proof. rewrite !forallb_forall. auto. Qed.

Lemma synchronizeIfUpdated_quiet (tex : TextureId) :
  respects (extendsWith isQuietPassEvent) (synchronizeIfUpdated tex).
Proof.
  unfold synchronizeIfUpdated. extends_auto.
  apply extendsWith_emits, synchronizeCommands_pass.
Qed.

Lemma synchronizeImageTextures_quiet (batches : list DrawBatch) :
  respects (extendsWith isQuietPassEvent) (synchronizeImageTextures batches).
Proof.
  induction batches as [|batch rest IH]; cbn [synchronizeImageTextures].
  - extends_auto.
  - pose proof synchronizeIfUpdated_quiet. extends_auto.
Qed.

Lemma respects_weaken {A} (R R' : relation State) (m : M A) :
  (forall s s', R s s' -> R' s s') -> respects R m -> respects R' m.
Proof. intros HRR Hm s. apply HRR, Hm. Qed.

Lemma extendsWith_quiet_pass {A} (m : M A) :
  respects (extendsWith isQuietPassEvent) m -> respects (extendsWith isPassEvent) m.
Proof.
  apply respects_weaken. intros s s'. apply extendsWith_weaken, quiet_is_pass.
Qed.

Lemma prepareDrawPass_pass (desc : FlushDescriptor) :
  respects (extendsWith isPassEvent) (prepareDrawPass desc).
Proof.
  pose proof (fun tex => extendsWith_quiet_pass _ (synchronizeIfUpdated_quiet tex)).
  pose proof (fun l => extendsWith_quiet_pass _ (synchronizeImageTextures_quiet l)).
  extends_auto.
Qed.

Lemma clearAtomicCoverage_quiet (desc : FlushDescriptor) :
  respects (extendsWith isQuietPassEvent) (clearAtomicCoverage desc).
Proof. extends_auto. Qed.

Lemma bindFlushDescriptorSets_quiet (desc : FlushDescriptor) (pass : DrawPass) :
  respects (extendsWith isQuietPassEvent) (bindFlushDescriptorSets desc pass).
Proof. extends_auto. Qed.

Lemma attachFrameCompletionFence_quiet (desc : FlushDescriptor) :
  respects (extendsWith isQuietPassEvent) (attachFrameCompletionFence desc).
Proof. extends_auto. Qed.

Lemma onRefCntReachedZero_quiet (pool : DescriptorSetPool) :
  respects (extendsWith isQuietPassEvent) (onRefCntReachedZero pool).
Proof. extends_auto. Qed.

Lemma bindImageTexture_setup (mode : InterlockMode.t) (perFlush : VkDescriptorSet)
    (batch : DrawBatch) (loop : LoopState) :
  respects (extendsWith isBatchSetup) (bindImageTexture mode perFlush batch loop).
Proof. extends_auto. Qed.

Lemma DrawPipeline_new_setup (key : Z) (type : DrawType.t) (mode : InterlockMode.t)
    (features : ShaderFeatures) (options : Z) :
  respects (extendsWith isBatchSetup) (DrawPipeline_new key type mode features options).
Proof. extends_auto. Qed.

(** *** One batch *)

Ltac yields_step :=
  lazymatch goal with
  | |- yields _ (mret _) => apply yields_ret
  | |- yields _ undefined => apply yields_undefined
  | |- yields _ (if ?c then _ else _) => destruct c
  | |- yields _ (match ?x with _ => _ end) => destruct x
  | |- yields _ (mbind _ _) => apply yields_bind_any; intros ?
  end.

(** Binding the image texture leaves the pending barrier pending. *)
Lemma bindImageTexture_flag (mode : InterlockMode.t) (perFlush : VkDescriptorSet)
    (batch : DrawBatch) (loop : LoopState) :
  yields (fun loop' => needsBarrierBeforeNextDraw loop' = needsBarrierBeforeNextDraw loop)
    (bindImageTexture mode perFlush batch loop).
Proof.
  unfold bindImageTexture.
  destruct (batch_imageTexture batch) as [tex|]; [|apply yields_ret; reflexivity].
  apply yields_bind_any; intros t. apply yields_bind_any; intros frame.
  apply (yields_bind
           (fun l => needsBarrierBeforeNextDraw l = needsBarrierBeforeNextDraw loop)).
  - destruct (bool_decide (m_descriptorSetFrameIdx t ≠ frame));
      [|apply yields_ret; reflexivity].
    apply (yields_bind
             (fun l => needsBarrierBeforeNextDraw l = needsBarrierBeforeNextDraw loop)).
    + unfold makeRoomForImageTextureUpdate. repeat yields_step; reflexivity.
    + intros l Hl. unfold updateImageTextureDescriptorSet. repeat yields_step. exact Hl.
  - intros l Hl. repeat yields_step. exact Hl.
Qed.

Lemma emit_Ok (e : Event) (s s' : State) (u : unit) :
  emit e s = Ok u s' -> trace s' = trace s ++ [e].
Proof. unfold emit, modify. intros Heq. injection Heq as _ <-. reflexivity. Qed.

Lemma gets_Ok {A} (f : State -> A) (s s' : State) (a : A) :
  gets f s = Ok a s' -> a = f s /\ s' = s.
Proof. unfold gets. intros Heq. injection Heq as <- <-. split; reflexivity. Qed.

(** A batch that binds its pipeline records, after the objects built on
    first use, exactly one [vkCmdBindPipeline]. *)
Lemma bindDrawPipeline_Ok (desc : FlushDescriptor) (variant : Z) (batch : DrawBatch)
    (s s' : State) (u : unit) :
  bindDrawPipeline desc variant batch s = Ok u s' ->
  exists setup key,
    trace s' = trace s ++ setup ++ [vkCmdBindPipeline (drawPipeline key)] /\
    forallb isBatchSetup setup = true.
Proof.
  unfold bindDrawPipeline. intros Hrun.
  inv_bind Hrun as nonSolid s1 Hm1. apply gets_Ok in Hm1 as [-> ->].
  inv_bind Hrun as pipelines s1 Hm1. apply gets_Ok in Hm1 as [-> ->].
  inv_bind Hrun as u1 s1 Hm1. apply emit_Ok in Hrun.
  assert (Hsetup : extendsWith isBatchSetup s s1).
  { pose proof DrawPipeline_new_setup as Hnew.
    eapply respects_Ok; [|exact Hm1]. extends_auto. }
  destruct Hsetup as (setup & Htrace & Hall).
  exists setup, (pipelineKeyOf desc variant (fillModeNonSolid s) batch).
  rewrite Hrun, Htrace, <- app_assoc. split; [reflexivity | assumption].
Qed.

Lemma bindDrawPipeline_ring (desc : FlushDescriptor) (variant : Z) (batch : DrawBatch) :
  respects (preserves m_bufferRingIdx) (bindDrawPipeline desc variant batch).
Proof. preserves_auto. Qed.

Lemma bindImageTexture_ring (mode : InterlockMode.t) (perFlush : VkDescriptorSet)
    (batch : DrawBatch) (loop : LoopState) :
  respects (preserves m_bufferRingIdx) (bindImageTexture mode perFlush batch loop).
Proof. preserves_auto. Qed.

(** The [switch] records the buffers of the batch and then its draw. *)
Lemma issueDraw_Ok (ringIdx : Z) (batch : DrawBatch) (s s' : State) (u : unit) :
  issueDraw ringIdx batch s = Ok u s' ->
  exists buffers draw,
    batchBuffers ringIdx batch = Some buffers /\
    batchDraw batch = Some draw /\
    trace s' = trace s ++ buffers ++ [draw].
Proof.
  unfold issueDraw. intros Hrun.
  destruct (batchBuffers ringIdx batch) as [buffers|]; [|discriminate Hrun].
  destruct (batchDraw batch) as [draw|]; [|discriminate Hrun].
  inv_bind Hrun as u1 s1 Hm1. rewrite emits_eq in Hm1. injection Hm1 as _ <-.
  apply emit_Ok in Hrun. exists buffers, draw.
  rewrite Hrun. cbn. rewrite <- app_assoc. repeat split.
Qed.

Lemma batchDraw_isDraw (batch : DrawBatch) (draw : Event) :
  batchDraw batch = Some draw -> isDraw draw = true.
Proof.
  unfold batchDraw. destruct (drawType batch); intros Heq;
    first [discriminate Heq | injection Heq as <-; reflexivity].
Qed.

Lemma batchBuffers_quiet (ringIdx : Z) (batch : DrawBatch) (buffers : list Event) :
  batchBuffers ringIdx batch = Some buffers -> forallb isQuietPassEvent buffers = true.
Proof.
  unfold batchBuffers.
  destruct (drawType batch), (vertexBuffer batch), (uvBuffer batch), (indexBuffer batch);
    intros Heq; first [discriminate Heq | injection Heq as <-; reflexivity].
Qed.

(** What a batch with elements records, in order: its descriptor sets and
    the objects built on first use, one pipeline binding, the barrier if
    one is pending, its buffers, its draw.  The barrier is pending
    afterwards exactly when the mode is atomics and the batch asks for it. *)
Lemma drawBatch_Ok (desc : FlushDescriptor) (variant : Z) (perFlush : VkDescriptorSet)
    (batch : DrawBatch) (loop loop' : LoopState) (s s' : State) :
  elementCount batch <> 0 ->
  drawBatch desc variant perFlush batch loop s = Ok loop' s' ->
  exists setup key buffers draw,
    trace s' = trace s ++ setup ++ [vkCmdBindPipeline (drawPipeline key)]
               ++ (if needsBarrierBeforeNextDraw loop then [subpassLoadBarrier] else [])
               ++ buffers ++ [draw] /\
    forallb isBatchSetup setup = true /\
    batchBuffers (m_bufferRingIdx s) batch = Some buffers /\
    batchDraw batch = Some draw /\
    needsBarrierBeforeNextDraw loop'
      = bool_decide (interlockMode desc = InterlockMode.atomics) && needsBarrier batch.
Proof.
  intros Hcount Hrun. unfold drawBatch in Hrun.
  destruct (elementCount batch =? 0) eqn:Hzero; [lia|].
  inv_bind Hrun as loop1 s1 Htex.
  inv_bind Hrun as u1 s2 Hpipe.
  inv_bind Hrun as u2 s3 Hbarrier.
  inv_bind Hrun as ringIdx s4 Hring. apply gets_Ok in Hring as [-> ->].
  inv_bind Hrun as u3 s4 Hdraw.
  injection Hrun as <- <-.
  pose proof (bindImageTexture_flag _ _ _ _ _ _ _ Htex) as Hflag. cbn beta in Hflag.
  pose proof (respects_Ok _ _ _ _ _ (bindImageTexture_setup _ _ _ _) Htex)
    as (setup1 & Htrace1 & Hall1).
  pose proof (respects_Ok _ _ _ _ _ (bindImageTexture_ring _ _ _ _) Htex) as Hring1.
  pose proof (respects_Ok _ _ _ _ _ (bindDrawPipeline_ring _ _ _) Hpipe) as Hring2.
  unfold preserves in Hring1, Hring2.
  apply bindDrawPipeline_Ok in Hpipe as (setup2 & key & Htrace2 & Hall2).
  apply issueDraw_Ok in Hdraw as (buffers & draw & Hbuffers & Hdraw & Htrace4).
  assert (Htrace3 : trace s3 = trace s2
            ++ (if needsBarrierBeforeNextDraw loop then [subpassLoadBarrier] else [])
          /\ m_bufferRingIdx s3 = m_bufferRingIdx s2).
  { rewrite <- Hflag. unfold when in Hbarrier.
    destruct (needsBarrierBeforeNextDraw loop1).
    - unfold emit, modify in Hbarrier. injection Hbarrier as _ <-.
      split; reflexivity.
    - injection Hbarrier as _ <-. rewrite app_nil_r. split; reflexivity. }
  destruct Htrace3 as [Htrace3 Hring3].
  exists (setup1 ++ setup2), key, buffers, draw.
  rewrite Htrace4, Htrace3, Htrace2, Htrace1. rewrite <- !app_assoc.
  split; [reflexivity|]. rewrite forallb_app, Hall1, Hall2.
  rewrite <- Hring1, <- Hring2, <- Hring3.
  repeat split; try assumption. 
Qed.

(** *** The draw loop *)

(** A batch without elements is passed over: [continue]. *)
Lemma drawBatch_zero (desc : FlushDescriptor) (variant : Z) (perFlush : VkDescriptorSet)
    (batch : DrawBatch) (loop : LoopState) (s : State) :
  elementCount batch = 0 ->
  drawBatch desc variant perFlush batch loop s = Ok loop s.
Proof. intros Hzero. unfold drawBatch. rewrite Hzero. reflexivity. Qed.

Lemma executeDrawList_app (desc : FlushDescriptor) (variant : Z)
    (perFlush : VkDescriptorSet) (l1 l2 : list DrawBatch) (loop : LoopState) (s : State) :
  executeDrawList desc variant perFlush (l1 ++ l2) loop s
  = (executeDrawList desc variant perFlush l1 loop
       ≫= executeDrawList desc variant perFlush l2) s.
Proof.
  revert loop s. induction l1 as [|batch l1 IH]; intros loop s; [reflexivity|].
  cbn [app executeDrawList]. unfold mbind, M_bind in IH |- *.
  destruct (drawBatch desc variant perFlush batch loop s) as [loop1 s1|s1];
    [apply IH | reflexivity].
Qed.

Lemma executeDrawList_zeros (desc : FlushDescriptor) (variant : Z)
    (perFlush : VkDescriptorSet) (batches : list DrawBatch) (loop : LoopState)
    (s : State) :
  Forall (fun batch => elementCount batch = 0) batches ->
  executeDrawList desc variant perFlush batches loop s = Ok loop s.
Proof.
  induction 1 as [|batch rest Hzero _ IH]; [reflexivity|].
  cbn [executeDrawList]. erewrite bind_eq by (apply drawBatch_zero; exact Hzero).
  exact IH.
Qed.

Lemma filter_isDraw_quiet (P : Event -> bool) (es : list Event) :
  (forall e, P e = true -> notDraw e = true) ->
  forallb P es = true -> filter (fun e => isDraw e = true) es = [].
Proof.
  intros HP Hall. induction es as [|e es IH]; [reflexivity|].
  cbn in Hall. apply andb_prop in Hall as [He Hes].
  rewrite filter_cons_False; [apply IH, Hes|].
  apply HP in He. unfold notDraw in He. destruct (isDraw e); [discriminate He | congruence].
Qed.

Lemma drawCalls_cons (batch : DrawBatch) (rest : list DrawBatch) :
  drawCalls (batch :: rest)
  = match (if elementCount batch =? 0 then None else batchDraw batch) with
    | Some draw => draw :: drawCalls rest
    | None => drawCalls rest
    end.
Proof. reflexivity. Qed.

(** The draw calls the loop records are those of the batches with
    elements, in the order of the draw list. *)
Lemma executeDrawList_draws (desc : FlushDescriptor) (variant : Z)
    (perFlush : VkDescriptorSet) (batches : list DrawBatch) (loop loop' : LoopState)
    (s s' : State) :
  executeDrawList desc variant perFlush batches loop s = Ok loop' s' ->
  exists new,
    trace s' = trace s ++ new /\
    filter (fun e => isDraw e = true) new = drawCalls batches.
Proof.
  revert loop s. induction batches as [|batch rest IH]; intros loop s Hrun.
  - injection Hrun as _ <-. exists []. rewrite app_nil_r. split; reflexivity.
  - cbn [executeDrawList] in Hrun. inv_bind Hrun as loop1 s1 Hbatch.
    apply IH in Hrun as (new & Htrace & Hdraws).
    rewrite drawCalls_cons.
    destruct (elementCount batch =? 0) eqn:Hzero.
    + rewrite drawBatch_zero in Hbatch by lia. injection Hbatch as _ <-.
      exists new. split; assumption.
    + apply drawBatch_Ok in Hbatch
        as (setup & key & buffers & draw & Htrace1 & Hsetup & Hbuffers & Hdraw & _);
        [|lia].
      rewrite Hdraw.
      exists ((setup ++ [vkCmdBindPipeline (drawPipeline key)]
               ++ (if needsBarrierBeforeNextDraw loop then [subpassLoadBarrier] else [])
               ++ buffers ++ [draw]) ++ new).
      rewrite Htrace, Htrace1, <- !app_assoc. split; [reflexivity|].
      rewrite !filter_app.
      rewrite (filter_isDraw_quiet isBatchSetup setup setup_is_notDraw Hsetup).
      rewrite (filter_isDraw_quiet isQuietPassEvent buffers quiet_is_notDraw
                 (batchBuffers_quiet _ _ _ Hbuffers)).
      assert (Hbar : filter (fun e => isDraw e = true)
                       (if needsBarrierBeforeNextDraw loop
                        then [subpassLoadBarrier] else []) = []).
      { destruct (needsBarrierBeforeNextDraw loop); reflexivity. }
      rewrite Hbar. cbn [app].
      rewrite filter_cons_False by (cbn; congruence).
      rewrite filter_cons_True by (apply (batchDraw_isDraw _ _ Hdraw)).
      cbn. rewrite Hdraws. reflexivity.
Qed.

(** Two batches with elements, with only batches without elements in
    between: after the draw of the first, the loop records for the second
    its set-up, one pipeline binding, the barrier exactly when the mode is
    atomics and the first batch asks for one, its buffers and its draw.
    The batches in between add nothing. *)
Lemma executeDrawList_consecutive (desc : FlushDescriptor) (variant : Z)
    (perFlush : VkDescriptorSet) (before : list DrawBatch) (first : DrawBatch)
    (skipped : list DrawBatch) (second : DrawBatch) (after : list DrawBatch)
    (loop loop' : LoopState) (s s' : State) :
  elementCount first <> 0 ->
  Forall (fun batch => elementCount batch = 0) skipped ->
  elementCount second <> 0 ->
  executeDrawList desc variant perFlush
    (before ++ first :: skipped ++ second :: after) loop s = Ok loop' s' ->
  exists t1 draw1 setup key buffers draw2 t3,
    trace s' = trace s ++ t1 ++ [draw1]
               ++ setup ++ [vkCmdBindPipeline (drawPipeline key)]
               ++ (if bool_decide (interlockMode desc = InterlockMode.atomics)
                      && needsBarrier first
                   then [subpassLoadBarrier] else [])
               ++ buffers ++ [draw2] ++ t3 /\
    batchDraw first = Some draw1 /\
    batchDraw second = Some draw2 /\
    forallb isBatchSetup setup = true /\
    (exists ringIdx, batchBuffers ringIdx second = Some buffers) /\
    filter (fun e => isDraw e = true) t3 = drawCalls after.
Proof.
  intros Hfirst Hskipped Hsecond Hrun.
  rewrite executeDrawList_app in Hrun. inv_bind Hrun as loop1 s1 Hbefore.
  cbn [executeDrawList] in Hrun. inv_bind Hrun as loop2 s2 Hbatch1.
  rewrite executeDrawList_app in Hrun. inv_bind Hrun as loop3 s3 Hskip.
  rewrite executeDrawList_zeros in Hskip by assumption. injection Hskip as <- <-.
  cbn [executeDrawList] in Hrun. inv_bind Hrun as loop4 s4 Hbatch2.
  apply executeDrawList_draws in Hbefore as (new1 & Htrace1 & _).
  apply executeDrawList_draws in Hrun as (new4 & Htrace4 & Hdraws4).
  apply drawBatch_Ok in Hbatch1
    as (setup1 & key1 & buffers1 & draw1 & Htrace2 & _ & _ & Hdraw1 & Hflag);
    [|assumption].
  apply drawBatch_Ok in Hbatch2
    as (setup2 & key2 & buffers2 & draw2 & Htrace3 & Hsetup2 & Hbuffers2 & Hdraw2 & _);
    [|assumption].
  rewrite Hflag in Htrace3.
  exists (new1 ++ setup1 ++ [vkCmdBindPipeline (drawPipeline key1)]
          ++ (if needsBarrierBeforeNextDraw loop1 then [subpassLoadBarrier] else [])
          ++ buffers1),
         draw1, setup2, key2, buffers2, draw2, new4.
  rewrite Htrace4, Htrace3, Htrace2, Htrace1, <- !app_assoc.
  repeat split; try assumption. eauto.
Qed.

(** *** flush, taken apart *)

Lemma renderPassAt_yields (mode : InterlockMode.t) (idx : Z) :
  yields (fun rp => rp = drawRenderPass mode idx) (renderPassAt mode idx).
Proof. unfold renderPassAt. repeat yields_step; reflexivity. Qed.

(** The render pass of the draw pass is the variant of the target's format
    and the flush's load action. *)
Lemma prepareDrawPass_yields (desc : FlushDescriptor) :
  yields (fun pass =>
            exists format,
              pass_renderPass pass
              = drawRenderPass (interlockMode desc)
                  (RenderPassVariantIdx format (colorLoadAction desc)))
    (prepareDrawPass desc).
Proof.
  unfold prepareDrawPass.
  repeat lazymatch goal with
         | |- yields _ (renderPassAt _ _ ≫= _) =>
             eapply yields_bind; [apply renderPassAt_yields | intros ? ->]
         | |- yields _ (mbind _ _) => apply yields_bind_any; intros ?
         end.
  apply yields_ret. eexists. reflexivity.
Qed.

(** A flush that returns has recorded, in this order: the gradient and
    tessellation passes and the other preparations; the begin of the draw
    pass; the viewport, scissor and per-flush descriptor sets; what the
    draw loop records; the end of the pass and the release of the locals. *)
Lemma flush_Ok (desc : FlushDescriptor) (s s' : State) (u : unit) :
  interlockMode desc <> InterlockMode.depthStencil ->
  flush desc s = Ok u s' ->
  exists pass before binding perFlush loop s1 s2 closing,
    trace s1 = trace s ++ before ++ [beginDrawPass desc pass] ++ binding /\
    forallb isPassEvent before = true /\
    forallb isQuietPassEvent binding = true /\
    executeDrawList desc (pass_renderPassVariantIdx pass) perFlush (drawList desc)
      {| descriptorSetPool := pass_pool pass;
         imageTextureUpdateCount := 0;
         needsBarrierBeforeNextDraw := initialNeedsBarrier desc |} s1 = Ok loop s2 /\
    trace s' = trace s2 ++ closing /\
    forallb isQuietPassEvent closing = true /\
    exists format,
      pass_renderPass pass
      = drawRenderPass (interlockMode desc)
          (RenderPassVariantIdx format (colorLoadAction desc)).
Proof.
  intros Hmode Hrun. unfold flush in Hrun.
  destruct (decide (interlockMode desc = InterlockMode.depthStencil)); [contradiction|].
  inv_bind Hrun as pass s0 Hprepare.
  inv_bind Hrun as u1 sa Hclear.
  inv_bind Hrun as u2 sb Hbegin. apply emit_Ok in Hbegin.
  inv_bind Hrun as u3 sc Hviewport. apply emit_Ok in Hviewport.
  inv_bind Hrun as u4 sd Hscissor. apply emit_Ok in Hscissor.
  inv_bind Hrun as perFlush s1 Hbind.
  inv_bind Hrun as loop s2 Hloop.
  inv_bind Hrun as u5 se Hend. apply emit_Ok in Hend.
  inv_bind Hrun as u6 sf Hfence.
  inv_bind Hrun as u7 sg Hrelease. apply emit_Ok in Hrelease.
  pose proof (prepareDrawPass_yields desc _ _ _ Hprepare) as Hpass.
  pose proof (respects_Ok _ _ _ _ _ (prepareDrawPass_pass desc) Hprepare)
    as (n0 & Ht0 & Ha0).
  pose proof (respects_Ok _ _ _ _ _ (clearAtomicCoverage_quiet desc) Hclear)
    as (na & Hta & Haa).
  pose proof (respects_Ok _ _ _ _ _ (bindFlushDescriptorSets_quiet desc pass) Hbind)
    as (n1 & Ht1 & Ha1).
  pose proof (respects_Ok _ _ _ _ _ (attachFrameCompletionFence_quiet desc) Hfence)
    as (nf & Htf & Haf).
  pose proof (respects_Ok _ _ _ _ _ (onRefCntReachedZero_quiet _) Hrun)
    as (ng & Htg & Hag).
  exists pass, (n0 ++ na),
    ([vkCmdSetViewport (pass_renderArea pass); vkCmdSetScissor (pass_renderArea pass)]
     ++ n1),
    perFlush, loop, s1, s2,
    ([vkCmdEndRenderPass] ++ nf ++ [releaseFramebuffer (pass_framebuffer pass)] ++ ng).
  split.
  { rewrite Ht1, Hscissor, Hviewport, Hbegin, Hta, Ht0, <- !app_assoc. reflexivity. }
  split.
  { rewrite forallb_app, Ha0. apply (forallb_weaken _ _ _ quiet_is_pass Haa). }
  split.
  { cbn [app forallb]. rewrite Ha1. reflexivity. }
  split; [exact Hloop|]. split.
  { rewrite Htg, Hrelease, Htf, Hend, <- !app_assoc. reflexivity. }
  split; [|exact Hpass].
  cbn [app forallb]. rewrite forallb_app, Haf. cbn [forallb]. rewrite Hag. reflexivity.
Qed.

Lemma zeros_or_first (batches : list DrawBatch) :
  Forall (fun batch => elementCount batch = 0) batches \/
  exists skipped first rest,
    batches = skipped ++ first :: rest /\
    Forall (fun batch => elementCount batch = 0) skipped /\
    elementCount first <> 0.
Proof.
  induction batches as [|batch rest IH]; [left; constructor|].
  destruct (decide (elementCount batch = 0)) as [Hzero|Hnonzero].
  - destruct IH as [Hall | (skipped & first & rest' & -> & Hskipped & Hfirst)].
    + left. constructor; assumption.
    + right. exists (batch :: skipped), first, rest'.
      split; [reflexivity|]. split; [constructor; assumption | assumption].
  - right. exists [], batch, rest. split; [reflexivity|]. split; [constructor | assumption].
Qed.

(** With a barrier pending when the loop starts, the barrier is recorded
    before the first draw. *)
Lemma flush_pending_barrier_before_first_draw (desc : FlushDescriptor) (s s' : State)
    (u : unit) :
  interlockMode desc <> InterlockMode.depthStencil ->
  initialNeedsBarrier desc = true ->
  flush desc s = Ok u s' ->
  exists before pass after,
    trace s' = trace s ++ before ++ beginDrawPass desc pass :: after /\
    (exists format,
       pass_renderPass pass
       = drawRenderPass (interlockMode desc)
           (RenderPassVariantIdx format (colorLoadAction desc))) /\
    ((Forall (fun batch => elementCount batch = 0) (drawList desc) /\
      forallb notDraw after = true) \/
     (exists skipped first rest a a' draw c,
        drawList desc = skipped ++ first :: rest /\
        Forall (fun batch => elementCount batch = 0) skipped /\
        elementCount first <> 0 /\
        batchDraw first = Some draw /\
        after = a ++ subpassLoadBarrier :: a' ++ draw :: c /\
        forallb notDraw a = true /\
        forallb notDraw a' = true)).
Proof.
  intros Hmode Hpending Hrun.
  apply flush_Ok in Hrun
    as (pass & before & binding & perFlush & loop & s1 & s2 & closing
        & Ht1 & Hbefore & Hbinding & Hloop & Ht' & Hclosing & Hpass);
    [|assumption].
  rewrite Hpending in Hloop.
  pose proof (forallb_weaken _ _ _ quiet_is_notDraw Hbinding) as Hbinding'.
  pose proof (forallb_weaken _ _ _ quiet_is_notDraw Hclosing) as Hclosing'.
  destruct (zeros_or_first (drawList desc))
    as [Hzeros | (skipped & first & rest & Hlist & Hskipped & Hfirst)].
  - rewrite executeDrawList_zeros in Hloop by assumption. injection Hloop as _ <-.
    exists before, pass, (binding ++ closing).
    split; [rewrite Ht', Ht1, <- !app_assoc; reflexivity|].
    split; [exact Hpass|]. left. split; [assumption|].
    rewrite forallb_app, Hbinding', Hclosing'. reflexivity.
  - rewrite Hlist, executeDrawList_app in Hloop. inv_bind Hloop as loop1 sa Hskip.
    rewrite executeDrawList_zeros in Hskip by assumption. injection Hskip as <- <-.
    cbn [executeDrawList] in Hloop. inv_bind Hloop as loop2 sb Hbatch.
    apply drawBatch_Ok in Hbatch
      as (setup & key & buffers & draw & Htb & Hsetup & Hbuffers & Hdraw & _);
      [|assumption].
    apply executeDrawList_draws in Hloop as (new & Ht2 & _).
    cbn [needsBarrierBeforeNextDraw] in Htb.
    exists before, pass,
      ((binding ++ setup ++ [vkCmdBindPipeline (drawPipeline key)])
       ++ subpassLoadBarrier :: buffers ++ draw :: (new ++ closing)).
    split; [rewrite Ht', Ht2, Htb, Ht1, <- !app_assoc; reflexivity|].
    split; [exact Hpass|]. right.
    exists skipped, first, rest,
      (binding ++ setup ++ [vkCmdBindPipeline (drawPipeline key)]), buffers, draw,
      (new ++ closing).
    repeat split; try assumption.
    + rewrite !forallb_app, Hbinding'.
      rewrite (forallb_weaken _ _ _ setup_is_notDraw Hsetup). reflexivity.
    + apply (forallb_weaken _ _ _ quiet_is_notDraw (batchBuffers_quiet _ _ _ Hbuffers)).
Qed.

Lemma flush_consecutive_draws (desc : FlushDescriptor) (s s' : State) (u : unit)
    (before : list DrawBatch) (first : DrawBatch) (skipped : list DrawBatch)
    (second : DrawBatch) (after : list DrawBatch) :
  interlockMode desc <> InterlockMode.depthStencil ->
  drawList desc = before ++ first :: skipped ++ second :: after ->
  elementCount first <> 0 ->
  Forall (fun batch => elementCount batch = 0) skipped ->
  elementCount second <> 0 ->
  flush desc s = Ok u s' ->
  exists t1 draw1 setup key buffers draw2 t3,
    trace s' = trace s ++ t1 ++ [draw1]
               ++ setup ++ [vkCmdBindPipeline (drawPipeline key)]
               ++ (if bool_decide (interlockMode desc = InterlockMode.atomics)
                      && needsBarrier first
                   then [subpassLoadBarrier] else [])
               ++ buffers ++ [draw2] ++ t3 /\
    batchDraw first = Some draw1 /\
    batchDraw second = Some draw2 /\
    forallb isBatchSetup setup = true /\
    (exists ringIdx, batchBuffers ringIdx second = Some buffers) /\
    filter (fun e => isDraw e = true) t3 = drawCalls after.
Proof.
  intros Hmode Hlist Hfirst Hskipped Hsecond Hrun.
  apply flush_Ok in Hrun
    as (pass & pre & binding & perFlush & loop & s1 & s2 & closing
        & Ht1 & _ & _ & Hloop & Ht' & Hclosing & _);
    [|assumption].
  rewrite Hlist in Hloop.
  apply executeDrawList_consecutive in Hloop
    as (t1 & draw1 & setup & key & buffers & draw2 & t3
        & Ht2 & Hdraw1 & Hdraw2 & Hsetup & Hbuffers & Hdraws);
    [|assumption..].
  exists ((pre ++ [beginDrawPass desc pass] ++ binding) ++ t1),
    draw1, setup, key, buffers, draw2, (t3 ++ closing).
  split; [rewrite Ht', Ht2, Ht1, <- !app_assoc; reflexivity|].
  repeat split; try assumption.
  rewrite filter_app, Hdraws.
  rewrite (filter_isDraw_quiet isQuietPassEvent closing quiet_is_notDraw Hclosing).
  apply app_nil_r.
Qed.

(** *** No barrier without atomics *)

Lemma respects_bind_yields {A B} (R : relation State) `{!PreOrder R} (Q : A -> Prop)
    (m : M A) (f : A -> M B) :
  respects R m -> yields Q m -> (forall a, Q a -> respects R (f a)) ->
  respects R (m ≫= f).
Proof.
  intros Hm HQ Hf s. unfold mbind, M_bind. specialize (Hm s).
  destruct (m s) as [a s1|s1] eqn:Hrun; cbn in Hm |- *; [|exact Hm].
  etransitivity; [exact Hm|]. apply Hf. eapply HQ. exact Hrun.
Qed.

Lemma issueDraw_pass (ringIdx : Z) (batch : DrawBatch) :
  respects (extendsWith isPassEvent) (issueDraw ringIdx batch).
Proof.
  unfold issueDraw, batchBuffers, batchDraw.
  destruct (drawType batch), (vertexBuffer batch), (uvBuffer batch), (indexBuffer batch);
    extends_auto.
Qed.

Lemma bindDrawPipeline_quiet (desc : FlushDescriptor) (variant : Z) (batch : DrawBatch) :
  respects (extendsWith isQuietPassEvent) (bindDrawPipeline desc variant batch).
Proof. extends_auto. Qed.

Lemma extendsWith_pass_notPipelineBarrier {A} (m : M A) :
  respects (extendsWith isPassEvent) m -> respects (extendsWith notPipelineBarrier) m.
Proof.
  apply respects_weaken. intros s s'. apply extendsWith_weaken, pass_is_notPipelineBarrier.
Qed.

Lemma extendsWith_setup_notPipelineBarrier {A} (m : M A) :
  respects (extendsWith isBatchSetup) m -> respects (extendsWith notPipelineBarrier) m.
Proof.
  apply respects_weaken. intros s s'.
  apply extendsWith_weaken, setup_is_notPipelineBarrier.
Qed.

Lemma drawBatch_pending (desc : FlushDescriptor) (variant : Z)
    (perFlush : VkDescriptorSet) (batch : DrawBatch) (loop : LoopState) :
  interlockMode desc <> InterlockMode.atomics ->
  needsBarrierBeforeNextDraw loop = false ->
  yields (fun loop' => needsBarrierBeforeNextDraw loop' = false)
    (drawBatch desc variant perFlush batch loop).
Proof.
  intros Hmode Hflag. unfold drawBatch.
  destruct (elementCount batch =? 0); [apply yields_ret; exact Hflag|].
  repeat yields_step. cbn.
  rewrite bool_decide_eq_false_2 by assumption. reflexivity.
Qed.

Lemma drawBatch_no_barrier (desc : FlushDescriptor) (variant : Z)
    (perFlush : VkDescriptorSet) (batch : DrawBatch) (loop : LoopState) :
  needsBarrierBeforeNextDraw loop = false ->
  respects (extendsWith notPipelineBarrier) (drawBatch desc variant perFlush batch loop).
Proof.
  intros Hflag. unfold drawBatch.
  destruct (elementCount batch =? 0); [extends_auto|].
  eapply respects_bind_yields;
    [typeclasses eauto
    | apply extendsWith_setup_notPipelineBarrier, bindImageTexture_setup
    | apply bindImageTexture_flag |].
  intros loop1 Hloop1. cbn beta in Hloop1. rewrite Hloop1, Hflag.
  pose proof (fun b => extendsWith_pass_notPipelineBarrier _
                         (extendsWith_quiet_pass _ (bindDrawPipeline_quiet desc variant b))).
  pose proof (fun r b => extendsWith_pass_notPipelineBarrier _ (issueDraw_pass r b)).
  cbn [when]. extends_auto.
Qed.

Lemma executeDrawList_no_barrier (desc : FlushDescriptor) (variant : Z)
    (perFlush : VkDescriptorSet) (batches : list DrawBatch) (loop : LoopState) :
  interlockMode desc <> InterlockMode.atomics ->
  needsBarrierBeforeNextDraw loop = false ->
  respects (extendsWith notPipelineBarrier)
    (executeDrawList desc variant perFlush batches loop).
Proof.
  intros Hmode. revert loop. induction batches as [|batch rest IH]; intros loop Hflag.
  - cbn [executeDrawList]. extends_auto.
  - cbn [executeDrawList].
    eapply respects_bind_yields;
      [typeclasses eauto
      | apply drawBatch_no_barrier; exact Hflag
      | apply drawBatch_pending; assumption
      | exact IH].
Qed.

(** A flush outside atomics mode records no pipeline barrier, however far
    it gets. *)
Lemma flush_no_barrier (desc : FlushDescriptor) :
  interlockMode desc <> InterlockMode.atomics ->
  respects (extendsWith notPipelineBarrier) (flush desc).
Proof.
  intros Hmode. unfold flush.
  pose proof (extendsWith_pass_notPipelineBarrier _ (prepareDrawPass_pass desc)).
  pose proof (extendsWith_pass_notPipelineBarrier _
                (extendsWith_quiet_pass _ (clearAtomicCoverage_quiet desc))).
  pose proof (fun pass => extendsWith_pass_notPipelineBarrier _
                (extendsWith_quiet_pass _ (bindFlushDescriptorSets_quiet desc pass))).
  pose proof (extendsWith_pass_notPipelineBarrier _
                (extendsWith_quiet_pass _ (attachFrameCompletionFence_quiet desc))).
  pose proof (fun pool => extendsWith_pass_notPipelineBarrier _
                (extendsWith_quiet_pass _ (onRefCntReachedZero_quiet pool))).
  assert (Hloop : forall variant perFlush pool,
            respects (extendsWith notPipelineBarrier)
              (executeDrawList desc variant perFlush (drawList desc)
                 {| descriptorSetPool := pool;
                    imageTextureUpdateCount := 0;
                    needsBarrierBeforeNextDraw := initialNeedsBarrier desc |})).
  { intros variant perFlush pool. apply executeDrawList_no_barrier; [assumption|].
    unfold initialNeedsBarrier. cbn.
    rewrite bool_decide_eq_false_2 by assumption. reflexivity. }
  extends_auto.
Qed.

End Parts.

(** ** The barriers of the draw pass *)

Section Barriers.

Context `{PlsHeader}.

(** C1. A flush in atomics mode whose colour load action is [clear] (and
    whose combined shader features include advanced blend) begins the draw
    pass with a render pass whose colour load op is [CLEAR], and records
    the colour-attachment-write to input-attachment-read barrier after that
    begin and before the first draw of the draw list.  When no batch has
    elements the pass records no draw at all. *)
Theorem flush_atomics_clear_barrier_before_first_draw
    (desc : FlushDescriptor) (s s' : State) :
  (forall a, 0 <= LoadAction_int a < 3) ->
  (forall a b, LoadAction_int a = LoadAction_int b -> a = b) ->
  interlockMode desc = InterlockMode.atomics ->
  colorLoadAction desc = LoadAction.clear ->
  Z.land (combinedShaderFeatures desc) ENABLE_ADVANCED_BLEND <> 0 ->
  flush desc s = Ok tt s' ->
  exists before pass after,
    trace s' = trace s ++ before ++ beginDrawPass desc pass :: after /\
    (exists idx,
       pass_renderPass pass = drawRenderPass InterlockMode.atomics idx /\
       LoadOpFromRenderPassVariant idx = Some VK_ATTACHMENT_LOAD_OP_CLEAR) /\
    ((Forall (fun batch => elementCount batch = 0) (drawList desc) /\
      forallb notDraw after = true) \/
     (exists skipped first rest a a' draw c,
        drawList desc = skipped ++ first :: rest /\
        Forall (fun batch => elementCount batch = 0) skipped /\
        elementCount first <> 0 /\
        batchDraw first = Some draw /\
        after = a ++ subpassLoadBarrier :: a' ++ draw :: c /\
        forallb notDraw a = true /\
        forallb notDraw a' = true)).
Proof.
  intros Hrange Hinj Hmode Hload _ Hrun.
  apply flush_pending_barrier_before_first_draw in Hrun
    as (before & pass & after & Htrace & (format & Hpass) & Hfirst).
  - exists before, pass, after. split; [exact Htrace|]. split; [|exact Hfirst].
    rewrite Hmode, Hload in Hpass.
    eexists. split; [exact Hpass|].
    apply LoadOpFromRenderPassVariant_clear; assumption.
  - rewrite Hmode. discriminate.
  - unfold initialNeedsBarrier. rewrite Hmode, Hload. reflexivity.
Qed.

(** C3. In atomics mode, when a batch that has elements and whose
    [needsBarrier] is set is followed by a later draw, the barrier (colour
    attachment write to input attachment read) is recorded after that
    batch's draw and before the next draw; batches without elements in
    between do not change this.  In rasterOrdering mode a flush records no
    pipeline barrier at all. *)
Theorem flush_needsBarrier_between_draws :
  (forall (desc : FlushDescriptor) (s s' : State)
          (before : list DrawBatch) (first : DrawBatch) (skipped : list DrawBatch)
          (second : DrawBatch) (after : list DrawBatch),
     interlockMode desc = InterlockMode.atomics ->
     drawList desc = before ++ first :: skipped ++ second :: after ->
     needsBarrier first = true ->
     elementCount first <> 0 ->
     Forall (fun batch => elementCount batch = 0) skipped ->
     elementCount second <> 0 ->
     flush desc s = Ok tt s' ->
     exists t1 draw1 t2 draw2 t3,
       trace s' = trace s ++ t1 ++ draw1 :: t2 ++ draw2 :: t3 /\
       batchDraw first = Some draw1 /\
       batchDraw second = Some draw2 /\
       forallb notDraw t2 = true /\
       subpassLoadBarrier ∈ t2 /\
       filter (fun e => isDraw e = true) t3 = drawCalls after) /\
  (forall (desc : FlushDescriptor) (s : State),
     interlockMode desc = InterlockMode.rasterOrdering ->
     exists new,
       trace (finalState (flush desc s)) = trace s ++ new /\
       forallb notPipelineBarrier new = true).
Proof.
  split.
  - intros desc s s' before first skipped second after
      Hmode Hlist Hneeds Hfirst Hskipped Hsecond Hrun.
    eapply flush_consecutive_draws in Hrun
      as (t1 & draw1 & setup & key & buffers & draw2 & t3
          & Htrace & Hdraw1 & Hdraw2 & Hsetup & (ringIdx & Hbuffers) & Hdraws);
      [|rewrite Hmode; discriminate|exact Hlist|assumption..].
    rewrite Hmode, Hneeds in Htrace.
    rewrite bool_decide_eq_true_2 in Htrace by reflexivity. cbn [andb] in Htrace.
    exists t1, draw1,
      (setup ++ [vkCmdBindPipeline (drawPipeline key)] ++ [subpassLoadBarrier] ++ buffers),
      draw2, t3.
    split; [rewrite Htrace, <- !app_assoc; reflexivity|].
    repeat split; try assumption.
    + rewrite !forallb_app.
      rewrite (forallb_weaken _ _ _ setup_is_notDraw Hsetup).
      rewrite (forallb_weaken _ _ _ quiet_is_notDraw (batchBuffers_quiet _ _ _ Hbuffers)).
      reflexivity.
    + rewrite !elem_of_app. right. right. left. apply list_elem_of_singleton. reflexivity.
  - intros desc s Hmode. apply flush_no_barrier. rewrite Hmode. discriminate.
Qed.

(** C10. A batch without elements is passed over by the draw loop: the
    iteration leaves the state and the loop's locals as they were, so no
    pipeline is looked up or bound, no buffer bound, no draw and no barrier
    recorded.  Between the draws of two batches with elements the flush
    records the set-up, the one pipeline binding, and the buffers of the
    second batch only, however many batches without elements lie in
    between, and the barrier the first batch asked for is recorded there,
    before the second batch's draw. *)
Theorem flush_skips_batches_without_elements :
  (forall (desc : FlushDescriptor) (renderPassVariantIdx : Z)
          (perFlushDescriptorSet : VkDescriptorSet) (batch : DrawBatch)
          (loop : LoopState) (s : State),
     elementCount batch = 0 ->
     drawBatch desc renderPassVariantIdx perFlushDescriptorSet batch loop s = Ok loop s) /\
  (forall (desc : FlushDescriptor) (s s' : State)
          (before : list DrawBatch) (first : DrawBatch) (skipped : list DrawBatch)
          (second : DrawBatch) (after : list DrawBatch),
     interlockMode desc <> InterlockMode.depthStencil ->
     drawList desc = before ++ first :: skipped ++ second :: after ->
     elementCount first <> 0 ->
     Forall (fun batch => elementCount batch = 0) skipped ->
     elementCount second <> 0 ->
     flush desc s = Ok tt s' ->
     exists t1 draw1 setup key buffers draw2 t3,
       trace s' = trace s ++ t1 ++ [draw1]
                  ++ setup ++ [vkCmdBindPipeline (drawPipeline key)]
                  ++ (if bool_decide (interlockMode desc = InterlockMode.atomics)
                         && needsBarrier first
                      then [subpassLoadBarrier] else [])
                  ++ buffers ++ [draw2] ++ t3 /\
       batchDraw first = Some draw1 /\
       batchDraw second = Some draw2 /\
       forallb isBatchSetup setup = true /\
       (exists ringIdx, batchBuffers ringIdx second = Some buffers) /\
       filter (fun e => isDraw e = true) t3 = drawCalls after).
Proof.
  split.
  - intros. apply drawBatch_zero. assumption.
  - intros. eapply flush_consecutive_draws; eassumption.
Qed.

End Barriers.

(** *** The theorems above at the example *)

Lemma example_flush_returns :
  flush example_flush example_state
  = Ok tt (finalState (flush example_flush example_state)).
Proof. vm_compute. reflexivity. Qed.

Lemma flush_atomics_clear_barrier_witness :
  exists before pass after,
    trace (finalState (flush example_flush example_state))
    = trace example_state ++ before ++ beginDrawPass example_flush pass :: after /\
    exists a a' draw c,
      batchDraw (example_batch DrawType.imageMesh 6 (Some 7%positive) true) = Some draw /\
      after = a ++ subpassLoadBarrier :: a' ++ draw :: c /\
      forallb notDraw a = true.
Proof.
  destruct (@flush_atomics_clear_barrier_before_first_draw example_header
              example_flush example_state
              (finalState (flush example_flush example_state))
              example_LoadAction_int_range example_LoadAction_int_inj
              eq_refl eq_refl ltac:(vm_compute; discriminate) example_flush_returns)
    as (before & pass & after & Htrace & _ & Hcases).
  exists before, pass, after. split; [exact Htrace|].
  destruct Hcases
    as [[Hzeros _] | (skipped & first & rest & a & a' & draw & c
                      & Hlist & Hskipped & Hfirst & Hdraw & Hafter & Ha & _)].
  - exfalso. apply Forall_cons in Hzeros as [_ Hzeros].
    apply Forall_cons in Hzeros as [Hzero _]. discriminate Hzero.
  - destruct skipped as [|b0 [|b1 skipped]].
    + injection Hlist as <- _. exfalso. apply Hfirst. reflexivity.
    + injection Hlist as _ <- _. exists a, a', draw, c. repeat split; assumption.
    + exfalso. injection Hlist as _ <- _.
      apply Forall_cons in Hskipped as [_ Hskipped].
      apply Forall_cons in Hskipped as [Hzero _]. discriminate Hzero.
Defined.

Lemma flush_needsBarrier_between_draws_witness :
  exists t1 draw1 t2 draw2 t3,
    trace (finalState (flush example_flush example_state))
    = trace example_state ++ t1 ++ draw1 :: t2 ++ draw2 :: t3 /\
    draw1 = vkCmdDrawIndexed 6 1 0 0 0 /\
    subpassLoadBarrier ∈ t2.
Proof.
  destruct (proj1 (@flush_needsBarrier_between_draws example_header)
              example_flush example_state
              (finalState (flush example_flush example_state))
              [example_batch DrawType.midpointFanPatches 0 None true]
              (example_batch DrawType.imageMesh 6 (Some 7%positive) true)
              [example_batch DrawType.interiorTriangulation 0 None false]
              (example_batch DrawType.imageMesh 6 (Some 7%positive) false)
              [example_batch DrawType.plsAtomicResolve 1 None false]
              eq_refl eq_refl eq_refl ltac:(discriminate)
              ltac:(repeat constructor) ltac:(discriminate) example_flush_returns)
    as (t1 & draw1 & t2 & draw2 & t3 & Htrace & Hdraw1 & _ & _ & Hbarrier & _).
  exists t1, draw1, t2, draw2, t3. split; [exact Htrace|]. split; [|exact Hbarrier].
  injection Hdraw1 as <-. reflexivity.
Defined.

Lemma flush_skips_batches_without_elements_witness :
  drawBatch example_flush 1 (descriptorSet 102)
    (example_batch DrawType.interiorTriangulation 0 None false)
    {| descriptorSetPool := 100; imageTextureUpdateCount := 1;
       needsBarrierBeforeNextDraw := true |} example_state
  = Ok {| descriptorSetPool := 100; imageTextureUpdateCount := 1;
          needsBarrierBeforeNextDraw := true |} example_state /\
  exists t1 setup key buffers t3,
    trace (finalState (flush example_flush example_state))
    = trace example_state ++ t1 ++ [vkCmdDrawIndexed 6 1 0 0 0]
      ++ setup ++ [vkCmdBindPipeline (drawPipeline key)] ++ [subpassLoadBarrier]
      ++ buffers ++ [vkCmdDrawIndexed 6 1 0 0 0] ++ t3 /\
    forallb isBatchSetup setup = true.
Proof.
  split.
  - apply (proj1 (@flush_skips_batches_without_elements example_header)). reflexivity.
  - destruct (proj2 (@flush_skips_batches_without_elements example_header)
                example_flush example_state
                (finalState (flush example_flush example_state))
                [example_batch DrawType.midpointFanPatches 0 None true]
                (example_batch DrawType.imageMesh 6 (Some 7%positive) true)
                [example_batch DrawType.interiorTriangulation 0 None false]
                (example_batch DrawType.imageMesh 6 (Some 7%positive) false)
                [example_batch DrawType.plsAtomicResolve 1 None false]
                ltac:(discriminate) eq_refl ltac:(discriminate)
                ltac:(repeat constructor) ltac:(discriminate) example_flush_returns)
      as (t1 & draw1 & setup & key & buffers & draw2 & t3
          & Htrace & Hdraw1 & Hdraw2 & Hsetup & _).
    injection Hdraw1 as <-. injection Hdraw2 as <-.
    exists t1, setup, key, buffers, t3. split; [exact Htrace | exact Hsetup].
Defined.

Lemma flush_depthStencil_is_no_op_witness :
  flush (example_desc InterlockMode.depthStencil LoadAction.clear example_batches)
    example_state
  = Ok tt example_state.
Proof.
  apply (@flush_depthStencil_is_no_op example_header
           (example_desc InterlockMode.depthStencil LoadAction.clear example_batches)
           example_state).
  reflexivity.
Defined.


(** ** Image texture descriptor sets *)

Section Descriptors.

Context `{PlsHeader}.

Lemma count_app (p : Event -> bool) (a b : list Event) :
  count p (a ++ b) = (count p a + count p b)%nat.
Proof. unfold count. rewrite filter_app, length_app. reflexivity. Qed.

Lemma pairing_app (awaiting : option VkDescriptorSet) (a b : list Event) :
  pairing awaiting (a ++ b)
  = match pairing awaiting a with
    | Some awaiting' => pairing awaiting' b
    | None => None
    end.
Proof.
  revert awaiting. induction a as [|e a IH]; intros awaiting; [reflexivity|].
  cbn [app pairing]. destruct (pairingStep awaiting e); [apply IH | reflexivity].
Qed.

Lemma allocationsPaired_app (a b : list Event) :
  allocationsPaired a -> allocationsPaired b -> allocationsPaired (a ++ b).
Proof.
  unfold allocationsPaired. intros Ha Hb. rewrite pairing_app, Ha. exact Hb.
Qed.

Lemma pairingStep_quiet (e : Event) :
  notImageTextureBinding e = true -> pairingStep None e = Some None.
Proof.
  unfold notImageTextureBinding. intros He. apply negb_true_iff in He.
  unfold pairingStep. rewrite He.
  destruct e; try reflexivity.
  destruct layout; first [reflexivity | discriminate He].
Qed.

Lemma allocationsPaired_quiet (es : list Event) :
  forallb notImageTextureBinding es = true -> allocationsPaired es.
Proof.
  unfold allocationsPaired. induction es as [|e es IH]; intros Hall; [reflexivity|].
  cbn in Hall. apply andb_prop in Hall as [He Hes].
  cbn [pairing]. rewrite (pairingStep_quiet e He). apply IH, Hes.
Qed.

Lemma write_is_binding (tex : TextureId) (e : Event) :
  isImageTextureWrite tex e = true -> isImageTextureBinding e = true.
Proof.
  destruct e; try discriminate. cbn.
  destruct dstBinding; first [discriminate | reflexivity].
Qed.

Lemma count_write_quiet (tex : TextureId) (es : list Event) :
  forallb notImageTextureBinding es = true -> count (isImageTextureWrite tex) es = 0%nat.
Proof.
  unfold count. induction es as [|e es IH]; intros Hall; [reflexivity|].
  cbn in Hall. apply andb_prop in Hall as [He Hes].
  rewrite filter_cons_False; [apply IH, Hes|].
  intros Hw. apply write_is_binding in Hw.
  unfold notImageTextureBinding in He. rewrite Hw in He. discriminate He.
Qed.

#[global] Instance oncePerFrame_preorder (tex : TextureId) : PreOrder (oncePerFrame tex).
Proof.
  split.
  - intros s. split; [reflexivity|]. exists []. rewrite app_nil_r.
    split; [reflexivity|]. split; [reflexivity|]. cbn.
    split; [lia|]. split; [discriminate|]. intros _. split; reflexivity.
  - intros s1 s2 s3 (F1 & n1 & T1 & P1 & C1 & B1 & K1) (F2 & n2 & T2 & P2 & C2 & B2 & K2).
    split; [congruence|]. exists (n1 ++ n2).
    split; [rewrite T2, T1, <- app_assoc; reflexivity|].
    split; [apply allocationsPaired_app; assumption|].
    rewrite count_app.
    destruct (decide (count (isImageTextureWrite tex) n1 = 1%nat)) as [Hone|Hnone].
    + destruct (K2 (B1 Hone)) as [Hzero Hsame].
      split; [lia|]. split.
      * intros _. destruct (B1 Hone) as [set Hset]. exists set.
        rewrite Hsame, F2. exact Hset.
      * intros Hbound. destruct (K1 Hbound) as [Hzero1 _]. lia.
    + assert (Hzero1 : count (isImageTextureWrite tex) n1 = 0%nat) by lia.
      rewrite Hzero1. cbn [Nat.add].
      split; [exact C2|]. split; [exact B2|].
      intros Hbound. destruct (K1 Hbound) as [_ Hsame1].
      assert (Hbound2 : boundThisFrame s2 tex).
      { destruct Hbound as [set Hset]. exists set. rewrite Hsame1, F1. exact Hset. }
      destruct (K2 Hbound2) as [Hzero2 Hsame2].
      split; [exact Hzero2 | congruence].
Qed.

(** A step that writes no image texture binding and keeps the frame and
    the textures' descriptor sets is such a stretch. *)
Lemma oncePerFrame_steady (tex : TextureId) (s s' : State) :
  keepsDescriptors s s' -> extendsWith notImageTextureBinding s s' ->
  oncePerFrame tex s s'.
Proof.
  intros [Hframe Hsame] (new & Htrace & Hquiet).
  split; [exact Hframe|]. exists new. split; [exact Htrace|].
  split; [apply allocationsPaired_quiet, Hquiet|].
  rewrite (count_write_quiet tex new Hquiet).
  split; [lia|]. split; [discriminate|]. intros _. split; [reflexivity | apply Hsame].
Qed.

Lemma respects_steady {A} (tex : TextureId) (m : M A) :
  respects keepsDescriptors m -> respects (extendsWith notImageTextureBinding) m ->
  respects (oncePerFrame tex) m.
Proof. intros Hk He s. apply oncePerFrame_steady; [apply Hk | apply He]. Qed.

Lemma pass_is_notImageTextureBinding (e : Event) :
  isPassEvent e = true -> notImageTextureBinding e = true.
Proof. unfold isPassEvent, notImageTextureBinding. intros Hq. apply andb_prop in Hq. tauto. Qed.

Lemma extendsWith_pass_notBinding {A} (m : M A) :
  respects (extendsWith isPassEvent) m ->
  respects (extendsWith notImageTextureBinding) m.
Proof.
  apply respects_weaken. intros s s'.
  apply extendsWith_weaken, pass_is_notImageTextureBinding.
Qed.

Lemma extendsWith_quiet_notBinding {A} (m : M A) :
  respects (extendsWith isQuietPassEvent) m ->
  respects (extendsWith notImageTextureBinding) m.
Proof. intros Hm. apply extendsWith_pass_notBinding, extendsWith_quiet_pass, Hm. Qed.

(** *** The frame and the descriptor sets are kept outside the image
    texture binding *)

Lemma descriptorOf_insert_other (s : State) (tex tex' : TextureId)
    (t : PLSTextureVulkanImpl) :
  tex' <> tex ->
  descriptorOf (set_textures (<[tex' := t]> (textures s)) s) tex = descriptorOf s tex.
Proof.
  intros Hne. unfold descriptorOf. cbn. rewrite lookup_insert_ne by assumption.
  reflexivity.
Qed.

(** Writing a texture member other than its descriptor set and frame. *)
Lemma updateTexture_keeps (tex : TextureId)
    (f : PLSTextureVulkanImpl -> PLSTextureVulkanImpl) :
  (forall t, m_imageTextureDescriptorSet (f t) = m_imageTextureDescriptorSet t) ->
  (forall t, m_descriptorSetFrameIdx (f t) = m_descriptorSetFrameIdx t) ->
  respects keepsDescriptors (updateTexture tex f).
Proof.
  intros Hset Hframe s. unfold updateTexture, texture, mbind, M_bind, gets, modify.
  destruct (textures s !! tex) as [t|] eqn:Hlookup; [|reflexivity].
  cbn [finalState mret M_ret]. split; [reflexivity|].
  intros tex'. unfold descriptorOf. cbn [textures set_textures].
  destruct (decide (tex' = tex)) as [->|Hne].
  - rewrite lookup_insert_eq, Hlookup. cbn. rewrite Hset, Hframe. reflexivity.
  - rewrite lookup_insert_ne by congruence. reflexivity.
Qed.

Lemma synchronizeIfUpdated_keeps (tex : TextureId) :
  respects keepsDescriptors (synchronizeIfUpdated tex).
Proof.
  pose proof (updateTexture_keeps tex (setUploadBuffer false)
                (fun _ => eq_refl) (fun _ => eq_refl)).
  unfold synchronizeIfUpdated. keeps_auto.
Qed.

Lemma synchronizeImageTextures_keeps (batches : list DrawBatch) :
  respects keepsDescriptors (synchronizeImageTextures batches).
Proof.
  induction batches as [|batch rest IH]; cbn [synchronizeImageTextures].
  - keeps_auto.
  - pose proof synchronizeIfUpdated_keeps. keeps_auto.
Qed.

Lemma prepareDrawPass_keeps (desc : FlushDescriptor) :
  respects keepsDescriptors (prepareDrawPass desc).
Proof.
  pose proof synchronizeIfUpdated_keeps. pose proof synchronizeImageTextures_keeps.
  keeps_auto.
Qed.

Lemma clearAtomicCoverage_keeps (desc : FlushDescriptor) :
  respects keepsDescriptors (clearAtomicCoverage desc).
Proof. keeps_auto. Qed.

Lemma bindFlushDescriptorSets_keeps (desc : FlushDescriptor) (pass : DrawPass) :
  respects keepsDescriptors (bindFlushDescriptorSets desc pass).
Proof. keeps_auto. Qed.

Lemma attachFrameCompletionFence_keeps (desc : FlushDescriptor) :
  respects keepsDescriptors (attachFrameCompletionFence desc).
Proof. keeps_auto. Qed.

Lemma onRefCntReachedZero_keeps (pool : DescriptorSetPool) :
  respects keepsDescriptors (onRefCntReachedZero pool).
Proof. keeps_auto. Qed.

Lemma bindDrawPipeline_keeps (desc : FlushDescriptor) (variant : Z) (batch : DrawBatch) :
  respects keepsDescriptors (bindDrawPipeline desc variant batch).
Proof. keeps_auto. Qed.

Lemma issueDraw_keeps (ringIdx : Z) (batch : DrawBatch) :
  respects keepsDescriptors (issueDraw ringIdx batch).
Proof. keeps_auto. Qed.

Lemma makeRoomForImageTextureUpdate_keeps (loop : LoopState) :
  respects keepsDescriptors (makeRoomForImageTextureUpdate loop).
Proof. keeps_auto. Qed.

Lemma makeRoomForImageTextureUpdate_quiet (loop : LoopState) :
  respects (extendsWith isQuietPassEvent) (makeRoomForImageTextureUpdate loop).
Proof. extends_auto. Qed.

Lemma bindImageDescriptorSets_keeps (mode : InterlockMode.t) (perFlush : VkDescriptorSet)
    (tex : TextureId) (batch : DrawBatch) :
  respects keepsDescriptors (bindImageDescriptorSets mode perFlush tex batch).
Proof. keeps_auto. Qed.

Lemma bindImageDescriptorSets_quiet (mode : InterlockMode.t) (perFlush : VkDescriptorSet)
    (tex : TextureId) (batch : DrawBatch) :
  respects (extendsWith isQuietPassEvent) (bindImageDescriptorSets mode perFlush tex batch).
Proof. extends_auto. Qed.

(** *** The image texture binding itself *)

Lemma run_bind {A B} (R : relation State) `{!PreOrder R} (m : M A) (f : A -> M B)
    (s : State) :
  R s (finalState (m s)) ->
  (forall a s1, m s = Ok a s1 -> R s1 (finalState (f a s1))) ->
  R s (finalState ((m ≫= f) s)).
Proof.
  intros Hm Hf. unfold mbind, M_bind.
  destruct (m s) as [a s1|s1]; cbn in Hm |- *; [|exact Hm].
  etransitivity; [exact Hm | apply Hf; reflexivity].
Qed.

(** The body of [if (imageTexture->m_descriptorSetFrameIdx != m_currentFrameIdx)],
    run on a texture that exists: one allocation, one write, and the
    texture carries the new set and the frame. *)
Lemma updateImageTextureDescriptorSet_eq (mode : InterlockMode.t) (tex : TextureId)
    (frame : Z) (loop : LoopState) (s : State) (t : PLSTextureVulkanImpl) :
  textures s !! tex = Some t ->
  let set := descriptorSet (nextHandle s) in
  updateImageTextureDescriptorSet mode tex frame loop s
  = Ok {| descriptorSetPool := descriptorSetPool loop;
          imageTextureUpdateCount := u32 (imageTextureUpdateCount loop + 1);
          needsBarrierBeforeNextDraw := needsBarrierBeforeNextDraw loop |}
       (set_trace
          (trace s
           ++ [ vkAllocateDescriptorSets (descriptorSetPool loop) (perDrawLayout mode) set;
                update_image_descriptor_sets set IMAGE_TEXTURE_IDX
                  VK_DESCRIPTOR_TYPE_SAMPLED_IMAGE (viewOf (imageTexture tex))
                  VK_IMAGE_LAYOUT_SHADER_READ_ONLY_OPTIMAL ])
          (set_textures
             (<[tex := setDescriptorSetFrameIdx frame (setDescriptorSet set t)]> (textures s))
             (set_nextHandle (nextHandle s + 1) s))).
Proof.
  intros Hlookup set.
  unfold updateImageTextureDescriptorSet, allocateDescriptorSet, freshHandle,
    updateTexture, texture, emit.
  unfold mbind, M_bind, gets, modify. cbn -[u32].
  rewrite Hlookup. cbn -[u32]. rewrite lookup_insert_eq. cbn -[u32].
  rewrite insert_insert_eq, <- app_assoc. reflexivity.
Qed.

Lemma updateImageTextureDescriptorSet_once (tex : TextureId) (mode : InterlockMode.t)
    (tex' : TextureId) (loop : LoopState) (s : State) (set : VkDescriptorSet)
    (frameIdx : Z) :
  descriptorOf s tex' = Some (set, frameIdx) ->
  frameIdx <> m_currentFrameIdx s ->
  oncePerFrame tex s
    (finalState (updateImageTextureDescriptorSet mode tex' (m_currentFrameIdx s) loop s)).
Proof.
  intros Hdesc Hstale.
  assert (Hlookup : exists t, textures s !! tex' = Some t).
  { unfold descriptorOf in Hdesc. destruct (textures s !! tex'); [eauto | discriminate]. }
  destruct Hlookup as [t Hlookup].
  rewrite (updateImageTextureDescriptorSet_eq _ _ _ _ _ _ Hlookup).
  cbn [finalState]. split; [reflexivity|].
  eexists. split; [reflexivity|]. split.
  { unfold allocationsPaired. cbn.
    destruct (decide (descriptorSet (nextHandle s) = descriptorSet (nextHandle s)));
      [reflexivity | congruence]. }
  unfold count. cbn [filter].
  rewrite filter_cons_False by (cbn; congruence).
  destruct (decide (tex' = tex)) as [->|Hne].
  - rewrite filter_cons_True by (cbn; apply bool_decide_eq_true_2; reflexivity).
    cbn. split; [lia|]. split.
    + intros _. eexists. unfold descriptorOf. cbn.
      rewrite lookup_insert_eq. cbn. reflexivity.
    + intros [set' Hbound]. rewrite Hdesc in Hbound. congruence.
  - rewrite filter_cons_False
      by (cbn; rewrite bool_decide_eq_false_2 by assumption; congruence).
    cbn. split; [lia|]. split; [discriminate|].
    intros _. split; [reflexivity|].
    unfold descriptorOf. cbn. rewrite lookup_insert_ne by assumption. reflexivity.
Qed.

Lemma texture_Ok (tex : TextureId) (s s' : State) (t : PLSTextureVulkanImpl) :
  texture tex s = Ok t s' -> s' = s /\ textures s !! tex = Some t.
Proof.
  unfold texture, mbind, M_bind, gets. destruct (textures s !! tex); [|discriminate].
  intros Heq. injection Heq as <- <-. split; reflexivity.
Qed.

(** A batch gives its texture a descriptor set at most once per frame. *)
Lemma bindImageTexture_once (tex : TextureId) (mode : InterlockMode.t)
    (perFlush : VkDescriptorSet) (batch : DrawBatch) (loop : LoopState) :
  respects (oncePerFrame tex) (bindImageTexture mode perFlush batch loop).
Proof.
  intros s. unfold bindImageTexture.
  destruct (batch_imageTexture batch) as [tex'|]; [|reflexivity].
  apply run_bind; [typeclasses eauto | |].
  { apply (respects_steady tex); [keeps_auto | extends_auto]. }
  intros t s0 Htexture. apply texture_Ok in Htexture as [-> Hlookup].
  apply run_bind; [typeclasses eauto | reflexivity |].
  intros frame s0 Hframe. apply gets_Ok in Hframe as [-> ->].
  assert (Hbind : forall l : LoopState,
            respects (oncePerFrame tex)
              (bindImageDescriptorSets mode perFlush tex' batch ≫= fun _ => mret l)).
  { intros l.
    apply respects_bind;
      [typeclasses eauto | | intros ?; apply respects_ret; typeclasses eauto].
    apply respects_steady;
      [apply bindImageDescriptorSets_keeps
      | apply extendsWith_quiet_notBinding, bindImageDescriptorSets_quiet]. }
  apply run_bind; [typeclasses eauto | | intros l s1 _; apply Hbind].
  destruct (bool_decide (m_descriptorSetFrameIdx t ≠ m_currentFrameIdx s)) eqn:Hstale;
    [|reflexivity].
  apply bool_decide_eq_true_1 in Hstale.
  apply run_bind; [typeclasses eauto | |].
  { apply (respects_steady tex);
      [apply makeRoomForImageTextureUpdate_keeps
      | apply extendsWith_quiet_notBinding, makeRoomForImageTextureUpdate_quiet]. }
  intros loop1 s1 Hroom.
  pose proof (respects_Ok _ _ _ _ _ (makeRoomForImageTextureUpdate_keeps loop) Hroom)
    as [Hframe1 Hsame1].
  rewrite <- Hframe1.
  eapply updateImageTextureDescriptorSet_once.
  - rewrite Hsame1. unfold descriptorOf. rewrite Hlookup. reflexivity.
  - rewrite Hframe1. exact Hstale.
Qed.

(** On a texture that carries the current frame, the batch binds the set
    the texture carries and does nothing else. *)
Lemma bindImageTexture_bound (mode : InterlockMode.t) (perFlush : VkDescriptorSet)
    (batch : DrawBatch) (loop : LoopState) (s : State) (tex : TextureId)
    (set : VkDescriptorSet) :
  batch_imageTexture batch = Some tex ->
  descriptorOf s tex = Some (set, m_currentFrameIdx s) ->
  bindImageTexture mode perFlush batch loop s
  = Ok loop
      (set_trace
         (trace s
          ++ [ vkCmdBindDescriptorSets (drawPipelineLayout mode) PER_FLUSH_BINDINGS_SET
                 [perFlush; set] [imageDrawDataOffset batch] ])
         s).
Proof.
  intros Hbatch Hdesc. unfold bindImageTexture. rewrite Hbatch.
  unfold descriptorOf in Hdesc.
  destruct (textures s !! tex) as [t|] eqn:Hlookup; [|discriminate Hdesc].
  cbn in Hdesc. injection Hdesc as Hset Hframe.
  unfold bindImageDescriptorSets, texture, emit.
  unfold mbind, M_bind, gets, modify. cbn. rewrite Hlookup. cbn.
  rewrite bool_decide_eq_false_2 by (intros Hne; apply Hne; exact Hframe).
  cbn. rewrite Hlookup. cbn. rewrite Hset. reflexivity.
Qed.

(** *** The draw loop, a flush, the flushes of a frame *)

Lemma emit_once (tex : TextureId) (e : Event) :
  notImageTextureBinding e = true -> respects (oncePerFrame tex) (emit e).
Proof.
  intros He. apply respects_steady.
  - apply respects_modify. intros s. apply keepsDescriptors_same; reflexivity.
  - apply extendsWith_emit, He.
Qed.

Lemma drawBatch_once (tex : TextureId) (desc : FlushDescriptor) (variant : Z)
    (perFlush : VkDescriptorSet) (batch : DrawBatch) (loop : LoopState) :
  respects (oncePerFrame tex) (drawBatch desc variant perFlush batch loop).
Proof.
  unfold drawBatch.
  destruct (elementCount batch =? 0); [apply respects_ret; typeclasses eauto|].
  apply respects_bind; [typeclasses eauto | apply bindImageTexture_once | intros loop1].
  apply respects_bind; [typeclasses eauto | | intros ?].
  { apply respects_steady;
      [apply bindDrawPipeline_keeps
      | apply extendsWith_quiet_notBinding, bindDrawPipeline_quiet]. }
  apply respects_bind; [typeclasses eauto | | intros ?].
  { unfold when. destruct (needsBarrierBeforeNextDraw loop1);
      [apply emit_once; reflexivity | apply respects_ret; typeclasses eauto]. }
  apply respects_bind; [typeclasses eauto | apply respects_gets; typeclasses eauto
                       | intros ringIdx].
  apply respects_bind; [typeclasses eauto | | intros ?; apply respects_ret; typeclasses eauto].
  apply respects_steady;
    [apply issueDraw_keeps | apply extendsWith_pass_notBinding, issueDraw_pass].
Qed.

Lemma executeDrawList_once (tex : TextureId) (desc : FlushDescriptor) (variant : Z)
    (perFlush : VkDescriptorSet) (batches : list DrawBatch) (loop : LoopState) :
  respects (oncePerFrame tex) (executeDrawList desc variant perFlush batches loop).
Proof.
  revert loop. induction batches as [|batch rest IH]; intros loop; cbn [executeDrawList].
  - apply respects_ret. typeclasses eauto.
  - apply respects_bind; [typeclasses eauto | apply drawBatch_once | exact IH].
Qed.

Lemma flush_once (tex : TextureId) (desc : FlushDescriptor) :
  respects (oncePerFrame tex) (flush desc).
Proof.
  pose proof (respects_steady tex _ (prepareDrawPass_keeps desc)
                (extendsWith_pass_notBinding _ (prepareDrawPass_pass desc))).
  pose proof (respects_steady tex _ (clearAtomicCoverage_keeps desc)
                (extendsWith_quiet_notBinding _ (clearAtomicCoverage_quiet desc))).
  pose proof (fun pass =>
                respects_steady tex _ (bindFlushDescriptorSets_keeps desc pass)
                  (extendsWith_quiet_notBinding _ (bindFlushDescriptorSets_quiet desc pass))).
  pose proof (respects_steady tex _ (attachFrameCompletionFence_keeps desc)
                (extendsWith_quiet_notBinding _ (attachFrameCompletionFence_quiet desc))).
  pose proof (fun pool =>
                respects_steady tex _ (onRefCntReachedZero_keeps pool)
                  (extendsWith_quiet_notBinding _ (onRefCntReachedZero_quiet pool))).
  pose proof (executeDrawList_once tex desc).
  unfold flush.
  repeat first [ respects_known | respects_step
               | apply emit_once; reflexivity ].
Qed.

Lemma flushes_once (tex : TextureId) (descs : list FlushDescriptor) :
  respects (oncePerFrame tex) (flushes descs).
Proof.
  induction descs as [|desc rest IH]; cbn [flushes].
  - apply respects_ret. typeclasses eauto.
  - apply respects_bind; [typeclasses eauto | apply flush_once | intros ?; exact IH].
Qed.

End Descriptors.

Section DescriptorSetsPerFrame.

Context `{PlsHeader}.


End DescriptorSetsPerFrame.

